(** * Mass transit billing: a shallow embedding of [mass_transit_billing.py]

    The program reads a station-to-zone map and a journey log, prices every
    IN/OUT pair of every user, caps the daily and the monthly totals and
    writes one line per user.  Amounts are Python [float]s, that is IEEE-754
    binary64 numbers; they are modelled by the Standard Library's
    specification of binary floating point ([spec_float], precision 53,
    exponent bound 1024), so that [+], [*], [<], [round] and [format] behave
    here as they do in the interpreter, rounding errors included. *)

From Stdlib Require Import ZArith List Bool Lia String Ascii.
From Stdlib Require Import Sorted Permutation DecimalString OrderedTypeEx.
From Stdlib Require Import Floats.
Import ListNotations.

Local Open Scope string_scope.
Local Open Scope list_scope.
Local Open Scope Z_scope.

Set Warnings "-inexact-float".

(** ** Exceptions and fallible computations *)

Inductive exn : Type :=
| TypeError
| ValueError
| IndexError
| OSError.

Inductive result (A : Type) : Type :=
| Ok (a : A)
| Raise (e : exn).

Arguments Ok {A} a.
Arguments Raise {A} e.

Definition bind {A B : Type} (c : result A) (k : A -> result B) : result B :=
  match c with
  | Ok a => k a
  | Raise e => Raise e
  end.

Notation "x <- c ;; k" := (bind c (fun x => k))
  (at level 61, c at next level, right associativity).

(** ** Python floats *)

Module PyFloat.

Definition float : Type := spec_float.

Definition prec : Z := 53.
Definition emax : Z := 1024.

Definition add : float -> float -> float := SFadd prec emax.
Definition mul : float -> float -> float := SFmul prec emax.
Definition div : float -> float -> float := SFdiv prec emax.
Definition ltb : float -> float -> bool := SFltb.
Definition leb : float -> float -> bool := SFleb.
Definition eqb : float -> float -> bool := SFeqb.

(** [float(n)] for a Python int: the nearest binary64 number. *)
Definition of_int (n : Z) : float := binary_normalize prec emax n 0 false.

(** The literals of the program, as (mantissa, exponent) pairs. *)
Definition f0_00 : float := S754_zero false.
Definition f0_10 : float := S754_finite false 7205759403792794 (-56).
Definition f0_30 : float := S754_finite false 5404319552844595 (-54).
Definition f0_50 : float := S754_finite false 4503599627370496 (-53).
Definition f0_80 : float := S754_finite false 7205759403792794 (-53).
Definition f2_00 : float := S754_finite false 4503599627370496 (-51).
Definition f5_00 : float := S754_finite false 5629499534213120 (-50).
Definition f15_00 : float := S754_finite false 8444249301319680 (-49).
Definition f100_00 : float := S754_finite false 7036874417766400 (-46).

(** [min(a, b)] on two arguments: the first one is kept unless the second
    one is strictly smaller ([b < a]); an unordered [b] (NaN) never wins. *)
Definition min (a b : float) : float := if ltb b a then b else a.

(** The integer nearest to [m * 2^e * 100], ties to even: the digits that
    correctly rounded conversion to two decimal places produces. *)
Definition hundredths (m : positive) (e : Z) : Z :=
  match e with
  | Zneg p =>
      let n := Zpos m * 100 in
      let d := 2 ^ Zpos p in
      let q := n / d in
      let r := n mod d in
      match 2 * r ?= d with
      | Lt => q
      | Gt => q + 1
      | Eq => if Z.even q then q else q + 1
      end
  | _ => Zpos m * 2 ^ e * 100
  end.

(** [round(x, 2)]: the float is converted to the nearest decimal with two
    fraction digits (ties to even, on the exact binary value) and that
    decimal is converted back to the nearest float; zeros, infinities and
    NaN round to themselves; the sign is kept. *)
Definition round2 (x : float) : float :=
  match x with
  | S754_finite s m e =>
      match hundredths m e with
      | Zpos k => div (S754_finite s k 0) (S754_finite false 100 0)
      | _ => S754_zero s
      end
  | _ => x
  end.

Definition is_finite (x : float) : bool :=
  match x with
  | S754_zero _ | S754_finite _ _ _ => true
  | _ => false
  end.

(** Well-formed binary64 values: the mantissa and the exponent of a
    finite number are the canonical ones.  Every operation above returns
    such values when it is given such values. *)
Definition valid (x : float) : bool := SpecFloat.valid_binary prec emax x.

(** A mantissa and an exponent are canonical when the exponent is the one
    the format assigns to numbers of that magnitude. *)
Definition canonical (m e : Z) : Prop := fexp prec emax (Zdigits2 m + e) = e.

(** Values that compare greater than or equal to zero: no NaN, no
    negative number. *)
Definition nonneg (x : float) : bool :=
  match x with
  | S754_zero _ | S754_infinity false | S754_finite false _ _ => true
  | _ => false
  end.

(** The amounts the fare engine handles. *)
Definition amount_ok (x : float) : bool := nonneg x && valid x.

End PyFloat.

Import PyFloat.

(** ** The pricing function *)

(** Python values that reach [get_additional_zone_cost] in the program and
    in its tests: ints, and objects of other types. *)
Inductive py_object : Type :=
| PyInt (n : Z)
| PyString (s : string)
| PyOther.

(** [get_additional_zone_cost(zone)]; [Ok None] is the implicit [return
    None] after the last [if]. *)
Definition get_additional_zone_cost (zone : py_object) : result (option float) :=
  match zone with
  | PyInt zone =>
      if zone <=? 0 then Raise ValueError
      else if zone =? 1 then Ok (Some f0_80)
      else if (2 <=? zone) && (zone <=? 3) then Ok (Some f0_50)
      else if (4 <=? zone) && (zone <=? 5) then Ok (Some f0_30)
      else if 6 <=? zone then Ok (Some f0_10)
      else Ok None
  | _ => Raise TypeError
  end.

(** [a + b] where [b] is the value returned by a call: adding [None] to a
    float raises [TypeError]. *)
Definition add_returned (a : float) (b : option float) : result float :=
  match b with
  | Some b => Ok (add a b)
  | None => Raise TypeError
  end.

(** ** Dates and journeys *)

(** [datetime.date]: compared by year, then month, then day. *)
Record date : Type := mk_date { year : Z; month : Z; day : Z }.

Record datetime : Type :=
  mk_datetime { dt_date : date; hour : Z; minute : Z; second : Z }.

Definition date_gtb (a b : date) : bool :=
  match year a ?= year b with
  | Gt => true
  | Lt => false
  | Eq =>
      match month a ?= month b with
      | Gt => true
      | Lt => false
      | Eq => day b <? day a
      end
  end.

(** An entry of [journeys_per_user]: [(zone, direction, timestamp)]. *)
Definition journey : Type := (Z * string * datetime)%type.

(** ** The fare engine: the body of [calculate_billing_amounts_per_user]
    for one user *)

(** The local variables of the loop.  [daily_journeys] is the Python list
    used as a stack: its last element (the one [pop()] removes and
    [append] adds) is the head of the list here. *)
Record loop_state : Type := mk_state {
  daily_journeys : list Z;
  daily_total : float;
  monthly_total : float;
  cur_day : date
}.

Definition is_empty {A : Type} (l : list A) : bool :=
  match l with
  | [] => true
  | _ :: _ => false
  end.

(** The [if direction == "IN" / elif / elif] chain of the loop body. *)
Definition charge (st : loop_state) (zone : Z) (direction : string)
  : result loop_state :=
  if (direction =? "IN")%string then
    Ok (mk_state (zone :: daily_journeys st)
          (daily_total st) (monthly_total st) (cur_day st))
  else if (direction =? "OUT")%string && is_empty (daily_journeys st) then
    Ok (mk_state (daily_journeys st)
          (add (daily_total st) f5_00) (monthly_total st) (cur_day st))
  else if (direction =? "OUT")%string then
    match daily_journeys st with
    | entry_zone :: rest =>
        c_in <- get_additional_zone_cost (PyInt entry_zone) ;;
        s1 <- add_returned f2_00 c_in ;;
        c_out <- get_additional_zone_cost (PyInt zone) ;;
        journey_cost <- add_returned s1 c_out ;;
        Ok (mk_state rest
              (add (daily_total st) (round2 journey_cost))
              (monthly_total st) (cur_day st))
    | [] => Raise IndexError
    end
  else Ok st.

(** The [if timestamp.date() > cur_day] block that ends the loop body. *)
Definition rollover (st : loop_state) (timestamp : datetime) : loop_state :=
  if date_gtb (dt_date timestamp) (cur_day st) then
    mk_state (daily_journeys st)
      f0_00
      (add (monthly_total st) (min f15_00 (daily_total st)))
      (dt_date timestamp)
  else st.

(** One iteration of [for zone, direction, timestamp in journeys]. *)
Definition process_event (st : loop_state) (j : journey) : result loop_state :=
  let '(zone, direction, timestamp) := j in
  st' <- charge st zone direction ;;
  Ok (rollover st' timestamp).

Fixpoint run_loop (st : loop_state) (journeys : list journey)
  : result loop_state :=
  match journeys with
  | [] => Ok st
  | j :: rest => st' <- process_event st j ;; run_loop st' rest
  end.

Definition initial_state (first : journey) : loop_state :=
  mk_state [] f0_00 f0_00 (dt_date (snd first)).

(** [daily_total] after the [if daily_journeys:] block that follows the
    loop. *)
Definition final_daily_total (st : loop_state) : float :=
  if is_empty (daily_journeys st) then daily_total st
  else add (daily_total st)
         (round2 (mul f5_00 (of_int (Z.of_nat (List.length (daily_journeys st)))))).

(** The amount added to [monthly_total] after the loop. *)
Definition final_flush (st : loop_state) : float :=
  round2 (min f15_00 (final_daily_total st)).

Definition final_monthly_total (st : loop_state) : float :=
  add (monthly_total st) (final_flush st).

(** The value stored in [user_bills[user_id]]. *)
Definition final_bill (st : loop_state) : float :=
  min f100_00 (final_monthly_total st).

(** The whole computation for one user; [journeys[0]] raises [IndexError]
    on an empty list. *)
Definition user_bill (journeys : list journey) : result float :=
  match journeys with
  | [] => Raise IndexError
  | first :: _ =>
      st <- run_loop (initial_state first) journeys ;;
      Ok (final_bill st)
  end.

(** ** Python strings, dictionaries and sorting *)

(** Strings are modelled by their UTF-8 bytes; lexicographic order on the
    bytes is the order of [str] (by code point).  The conversions below
    are those of the interpreter on ASCII text ([is_ascii]).  On text with
    a byte above 127 they are not: such a byte is an ordinary character
    here, whereas [int] and [strptime] also accept the decimal digits and
    the white space of other scripts.  Statements that depend on a
    conversion are therefore made for ASCII fields. *)

Module PyStr.

Definition code (c : ascii) : Z := Z.of_N (N_of_ascii c).

(** The white space that [int] skips around an ASCII literal: tab, line
    feed, vertical tab, form feed, carriage return and space. *)
Definition is_space (c : ascii) : bool :=
  let n := code c in
  ((9 <=? n) && (n <=? 13)) || (n =? 32).

Definition digit_of (c : ascii) : option Z :=
  let n := code c in
  if (48 <=? n) && (n <=? 57) then Some (n - 48) else None.

Definition is_digit (c : ascii) : bool :=
  match digit_of c with
  | Some _ => true
  | None => false
  end.

(** Text without any byte above 127. *)
Fixpoint is_ascii (s : string) : bool :=
  match s with
  | String c r => (code c <? 128) && is_ascii r
  | EmptyString => true
  end.

Fixpoint lstrip (s : string) : string :=
  match s with
  | String c r => if is_space c then lstrip r else s
  | EmptyString => s
  end.

Fixpoint all_space (s : string) : bool :=
  match s with
  | String c r => is_space c && all_space r
  | EmptyString => true
  end.

(** The digits of an integer literal: decimal digits, single underscores
    allowed between two digits, optional trailing white space.
    [after_digit] tells whether the previous character was a digit. *)
Fixpoint parse_digits (s : string) (acc : Z) (after_digit : bool) : option Z :=
  match s with
  | EmptyString => if after_digit then Some acc else None
  | String c r =>
      match digit_of c with
      | Some d => parse_digits r (10 * acc + d) true
      | None =>
          if after_digit && (c =? "_")%char then parse_digits r acc false
          else if after_digit && is_space c && all_space r then Some acc
          else None
      end
  end.

Fixpoint count_digits (s : string) : Z :=
  match s with
  | String c r => (if is_digit c then 1 else 0) + count_digits r
  | EmptyString => 0
  end.

(** The interpreter's limit on the digits of an integer literal
    ([sys.get_int_max_str_digits()], 4300 unless configured otherwise):
    leading zeros count, underscores, sign and white space do not. *)
Definition max_str_digits : Z := 4300.

(** [int(s)] for a string, base 10; [None] stands for [ValueError], which
    is raised for a malformed literal and for one over the digit limit. *)
Definition to_int (s : string) : option Z :=
  if max_str_digits <? count_digits s then None
  else
    match lstrip s with
    | String "+" r => parse_digits r 0 false
    | String "-" r => option_map Z.opp (parse_digits r 0 false)
    | r => parse_digits r 0 false
    end.

Definition digit_char (d : Z) : ascii := ascii_of_N (Z.to_N (48 + d)).

(** [str(n)] for a non-negative int. *)
Definition of_nonneg_int (n : Z) : string :=
  NilZero.string_of_uint (N.to_uint (Z.to_N n)).

(** [format(x, ".2f")] for a float: sign, integer digits, a point and two
    fraction digits, from the same correctly rounded decimal as [round];
    infinities and NaN are spelled out. *)
Definition format_2f (x : float) : string :=
  let sign (s : bool) := if s then "-" else "" in
  match x with
  | S754_nan => "nan"
  | S754_infinity s => sign s ++ "inf"
  | S754_zero s => sign s ++ "0.00"
  | S754_finite s m e =>
      let k := hundredths m e in
      sign s ++ of_nonneg_int (k / 100) ++ "."
        ++ String (digit_char (k mod 100 / 10))
             (String (digit_char (k mod 10)) "")
  end.

Fixpoint all_digits (s : string) : bool :=
  match s with
  | String c r => is_digit c && all_digits r
  | EmptyString => true
  end.

(** A decimal string with exactly two fraction digits: a non-empty run of
    digits, a point, two digits. *)
Fixpoint digits_then_fraction (s : string) (seen_digit : bool) : bool :=
  match s with
  | String "." (String d1 (String d2 "")) =>
      seen_digit && is_digit d1 && is_digit d2
  | String c r => is_digit c && digits_then_fraction r true
  | EmptyString => false
  end.

Definition has_two_fraction_digits (s : string) : bool :=
  match s with
  | String "-" r => digits_then_fraction r false
  | _ => digits_then_fraction s false
  end.

End PyStr.

(** A [dict] with string keys: the list of its items in insertion order.
    Assigning to a key that is present replaces the value in place;
    assigning to a new key appends an item. *)
Module PyDict.

Definition dict (V : Type) : Type := list (string * V).

Definition empty {V : Type} : dict V := [].

Fixpoint get {V : Type} (d : dict V) (k : string) : option V :=
  match d with
  | [] => None
  | (k', v) :: r => if (k' =? k)%string then Some v else get r k
  end.

Fixpoint set {V : Type} (d : dict V) (k : string) (v : V) : dict V :=
  match d with
  | [] => [(k, v)]
  | (k', v') :: r =>
      if (k' =? k)%string then (k', v) :: r else (k', v') :: set r k v
  end.

Definition items {V : Type} (d : dict V) : list (string * V) := d.

Definition keys {V : Type} (d : dict V) : list string := map fst d.

End PyDict.

Import PyDict.

(** [t1 < t2] on [(user_id, bill_amount)] tuples: the first components
    decide unless they are equal. *)
Definition tuple_ltb (t1 t2 : string * float) : bool :=
  if (fst t1 =? fst t2)%string then ltb (snd t1) (snd t2)
  else (fst t1 <? fst t2)%string.

(** [sorted] is a stable sort that only uses [<]; on the items of a dict
    (pairwise distinct keys) every such sort returns the same list.  It is
    modelled by stable insertion, left to right. *)
Fixpoint insert_sorted (t : string * float) (l : list (string * float))
  : list (string * float) :=
  match l with
  | [] => [t]
  | t' :: r => if tuple_ltb t t' then t :: l else t' :: insert_sorted t r
  end.

Definition sorted (l : list (string * float)) : list (string * float) :=
  fold_left (fun acc t => insert_sorted t acc) l [].

(** ** The billing system *)

(** The attributes of [MassTransitBillingSystem] that the methods update.
    The three file names stand for the files themselves, which are
    arguments of the methods below. *)
Record MassTransitBillingSystem : Type := mk_system {
  station_to_zone : dict Z;
  journeys_per_user : dict (list journey);
  user_bills : dict float
}.

(** [__init__]. *)
Definition new_system : MassTransitBillingSystem :=
  mk_system empty empty empty.

(** A CSV file as [csv.reader] yields it when it reads the file to its
    end: a list of rows, each a list of fields; [None] when the file cannot
    be opened.  A reader that raises part of the way (a [csv.Error] for a
    field over the size limit, a decoding error) is outside this model. *)
Definition csv_file : Type := option (list (list string)).

(** The loop of [read_zone_map]: a row that does not unpack into two
    fields, or whose second field [int] rejects, raises [ValueError]; the
    entries stored before it stay. *)
Fixpoint store_zones (rows : list (list string)) (zones : dict Z)
  : dict Z * result unit :=
  match rows with
  | [] => (zones, Ok tt)
  | [station; zone] :: rest =>
      match PyStr.to_int zone with
      | Some z => store_zones rest (set zones station z)
      | None => (zones, Raise ValueError)
      end
  | _ :: _ => (zones, Raise ValueError)
  end.

(** [read_zone_map]; [next(reader, None)] drops the header row if there is
    one. *)
Definition read_zone_map (file : csv_file) (sys : MassTransitBillingSystem)
  : MassTransitBillingSystem * result unit :=
  match file with
  | None => (sys, Raise OSError)
  | Some rows =>
      let '(zones, r) := store_zones (tl rows) (station_to_zone sys) in
      (mk_system zones (journeys_per_user sys) (user_bills sys), r)
  end.

(** The outer loop of [calculate_billing_amounts_per_user]. *)
Fixpoint bill_users (users : list (string * list journey)) (bills : dict float)
  : dict float * result unit :=
  match users with
  | [] => (bills, Ok tt)
  | (user_id, journeys) :: rest =>
      match user_bill journeys with
      | Ok amount => bill_users rest (set bills user_id amount)
      | Raise e => (bills, Raise e)
      end
  end.

Definition calculate_billing_amounts_per_user (sys : MassTransitBillingSystem)
  : MassTransitBillingSystem * result unit :=
  let '(bills, r) := bill_users (items (journeys_per_user sys)) (user_bills sys) in
  (mk_system (station_to_zone sys) (journeys_per_user sys) bills, r).

(** ** Writing the report *)

(** The rows handed to [writer.writerow], in order. *)
Definition output_rows (bills : dict float) : list (list string) :=
  map (fun t => [fst t; PyStr.format_2f (snd t)]) (sorted (items bills)).

(** What the output file holds: the text that [csv.writer] produces for
    some rows, whole, or only the first [bytes] bytes of that text. *)
Inductive contents : Type :=
| complete (rows : list (list string))
| truncated (rows : list (list string)) (bytes : nat).

(** How the output file behaves during one run.  It may refuse to open.
    Once open it has been emptied; the rows go through the buffer of the
    text file, so that a failing write shows at a flush or when [with]
    closes the file: [OSError] is raised and the file holds the bytes that
    reached it, a prefix of the text that may end inside a row. *)
Inductive sink_behaviour : Type :=
| sink_ok
| sink_cannot_open
| sink_fails_after (bytes : nat).

(** [write_billing_output]: the contents of the destination before and
    after ([None]: no such file).  [stdout] is what the closing [print]
    does, return or raise; it is reached only when the file has been
    written and closed. *)
Definition write_billing_output (sys : MassTransitBillingSystem)
    (sink : sink_behaviour) (stdout : result unit)
    (destination : option contents)
  : option contents * result unit :=
  match sink with
  | sink_cannot_open => (destination, Raise OSError)
  | sink_fails_after bytes =>
      (Some (truncated (output_rows (user_bills sys)) bytes), Raise OSError)
  | sink_ok => (Some (complete (output_rows (user_bills sys))), stdout)
  end.

(** ** The reference fixture of the test suite *)

Definition at_ (y mo d h mi : Z) : datetime := mk_datetime (mk_date y mo d) h mi 0.

Definition fixture_user1 : list journey :=
  [ (1, "IN", at_ 2022 4 4 9 40); (3, "OUT", at_ 2022 4 4 13 55);
    (1, "IN", at_ 2022 4 7 9 40); (1, "OUT", at_ 2022 4 7 9 45) ].

Definition fixture_user2 : list journey :=
  [ (3, "IN", at_ 2022 4 4 9 50); (1, "OUT", at_ 2022 4 4 10 50) ].

Definition fixture_user3 : list journey :=
  [ (4, "IN", at_ 2022 4 6 5 10); (2, "OUT", at_ 2022 4 6 7 40);
    (2, "OUT", at_ 2022 4 10 7 40) ].

Definition fixture_zone_map : csv_file :=
  Some [ ["station"; "zone"];
         ["station1"; "1"]; ["station2"; "2"];
         ["station3"; "3"]; ["station4"; "4"] ].

Definition fixture_journeys : dict (list journey) :=
  [ ("user1", fixture_user1); ("user2", fixture_user2); ("user3", fixture_user3) ].

(** Three journeys from zone 2 to zone 1 on one day, 3.30 each. *)
Definition three_pairs_one_day : list journey :=
  [ (2, "IN", at_ 2022 4 4 8 0); (1, "OUT", at_ 2022 4 4 8 30);
    (2, "IN", at_ 2022 4 4 12 0); (1, "OUT", at_ 2022 4 4 12 30);
    (2, "IN", at_ 2022 4 4 17 0); (1, "OUT", at_ 2022 4 4 17 30) ].

(** 9.9 and the float just below it, 9.899999999999999, which is what
    3.3 + 3.3 + 3.3 evaluates to. *)
Definition f9_90 : float := S754_finite false 5573204538870989 (-49).
Definition f9_90_pred : float := S754_finite false 5573204538870988 (-49).

(** ** Vocabulary of the statements *)

Definition zone_of (j : journey) : Z := fst (fst j).
Definition direction_of (j : journey) : string := snd (fst j).
Definition timestamp_of (j : journey) : datetime := snd j.

(** The tier of a zone, as the documentation lists them. *)
Definition tier_cost (z : Z) : float :=
  if z =? 1 then f0_80
  else if z <=? 3 then f0_50
  else if z <=? 5 then f0_30
  else f0_10.

(** A data row of the zone map that [read_zone_map] accepts: two fields,
    the second one an integer literal. *)
Definition row_loads (row : list string) : Prop :=
  exists (station zone : string) (z : Z),
    row = [station; zone] /\ PyStr.to_int zone = Some z.

(** Rows all of whose fields are ASCII text, the text on which the
    conversions of [PyStr] and [Strptime] are those of the interpreter. *)
Definition ascii_row (row : list string) : Prop :=
  Forall (fun field => PyStr.is_ascii field = true) row.

Definition ascii_rows (rows : list (list string)) : Prop :=
  Forall ascii_row rows.

Definition ascii_file (file : csv_file) : Prop :=
  match file with
  | Some rows => ascii_rows rows
  | None => True
  end.

(** The two fields of a row of the report. *)
Definition row_user (row : list string) : string := nth 0 row "".
Definition row_amount (row : list string) : string := nth 1 row "".

(** Strict lexicographic order on user identifiers, [u < v] on [str]. *)
Definition string_lt (u v : string) : Prop := (u <? v)%string = true.

Definition key_lt (t1 t2 : string * float) : Prop := string_lt (fst t1) (fst t2).

(** Every zone of the journeys is a valid one. *)
Definition zones_valid (js : list journey) : Prop :=
  Forall (fun j => 1 <= zone_of j) js.

Definition stack_valid (st : loop_state) : Prop :=
  Forall (fun z => 1 <= z) (daily_journeys st).

(** Both running totals are non-negative binary64 amounts. *)
Definition totals_ok (st : loop_state) : Prop :=
  amount_ok (daily_total st) = true /\ amount_ok (monthly_total st) = true.

(** What one pass through the [if]/[elif] chain does to [daily_total]:
    nothing, or the addition of a non-negative amount. *)
Definition daily_increment (st st' : loop_state) : Prop :=
  daily_total st' = daily_total st \/
  exists inc, leb f0_00 inc = true /\ amount_ok inc = true /\
              daily_total st' = add (daily_total st) inc.

(** [f] holds of 1, 2, ..., [n]. *)
Fixpoint all_upto (f : Z -> bool) (n : nat) : bool :=
  match n with
  | O => true
  | S n' => f (Z.of_nat n) && all_upto f n'
  end.

(** The float nearest to [k / 100], as [round2] computes it. *)
Definition hundredths_to_float (k : Z) : float :=
  match k with
  | Zpos k => div (S754_finite false k 0) (S754_finite false 100 0)
  | _ => S754_zero false
  end.

(** ** Reading the journey log *)

(** Exceptions of the methods below: the ones above, and [KeyError] with
    the missing key. *)
Inductive exception : Type :=
| Builtin (e : exn)
| KeyError (key : string).

Inductive outcome : Type :=
| Done
| Raised (e : exception).

Definition outcome_of (r : result unit) : outcome :=
  match r with
  | Ok _ => Done
  | Raise e => Raised (Builtin e)
  end.

(** [datetime.strptime(s, "%Y-%m-%dT%H:%M:%S")] on ASCII text
    ([PyStr.is_ascii]; the library's [\d] also matches the decimal digits
    of other scripts, which this model does not).  The library turns the
    format into a regular expression, matched at the start of the string
    and ignoring case; each numeric field lists its two-character forms
    before its one-character form. *)
Module Strptime.

Definition or_else {A : Type} (x y : option A) : option A :=
  match x with
  | Some _ => x
  | None => y
  end.

Definition two_digits (ok : Z -> Z -> bool) (s : string) : option (Z * string) :=
  match s with
  | String a (String b r) =>
      match PyStr.digit_of a, PyStr.digit_of b with
      | Some a, Some b => if ok a b then Some (10 * a + b, r) else None
      | _, _ => None
      end
  | _ => None
  end.

Definition one_digit (ok : Z -> bool) (s : string) : option (Z * string) :=
  match s with
  | String a r =>
      match PyStr.digit_of a with
      | Some a => if ok a then Some (a, r) else None
      | None => None
      end
  | EmptyString => None
  end.

(** [%Y]: [\d\d\d\d]. *)
Definition field_Y (s : string) : option (Z * string) :=
  match two_digits (fun _ _ => true) s with
  | Some (hi, r) =>
      match two_digits (fun _ _ => true) r with
      | Some (lo, r') => Some (100 * hi + lo, r')
      | None => None
      end
  | None => None
  end.

(** [%m]: [1[0-2]|0[1-9]|[1-9]]. *)
Definition field_m (s : string) : option (Z * string) :=
  or_else
    (two_digits (fun a b => ((a =? 1) && (b <=? 2)) || ((a =? 0) && (1 <=? b))) s)
    (one_digit (fun a => 1 <=? a) s).

(** [%d]: [3[0-1]|[1-2]\d|0[1-9]|[1-9]| [1-9]]. *)
Definition field_d (s : string) : option (Z * string) :=
  or_else
    (two_digits (fun a b => ((a =? 3) && (b <=? 1)) || ((1 <=? a) && (a <=? 2))
                            || ((a =? 0) && (1 <=? b))) s)
    (or_else
       (one_digit (fun a => 1 <=? a) s)
       (match s with
        | String " " r => one_digit (fun a => 1 <=? a) r
        | _ => None
        end)).

(** [%H]: [2[0-3]|[0-1]\d|\d]. *)
Definition field_H (s : string) : option (Z * string) :=
  or_else
    (two_digits (fun a b => ((a =? 2) && (b <=? 3)) || (a <=? 1)) s)
    (one_digit (fun _ => true) s).

(** [%M]: [[0-5]\d|\d]. *)
Definition field_M (s : string) : option (Z * string) :=
  or_else (two_digits (fun a _ => a <=? 5) s) (one_digit (fun _ => true) s).

(** [%S]: [6[0-1]|[0-5]\d|\d]. *)
Definition field_S (s : string) : option (Z * string) :=
  or_else
    (two_digits (fun a b => ((a =? 6) && (b <=? 1)) || (a <=? 5)) s)
    (one_digit (fun _ => true) s).

Definition literal (c : ascii) (s : string) : option string :=
  match s with
  | String c' r => if (c' =? c)%char then Some r else None
  | EmptyString => None
  end.

(** The [T] of the format matches either case. *)
Definition literal_T (s : string) : option string :=
  or_else (literal "T" s) (literal "t" s).

Definition is_leap (y : Z) : bool :=
  (y mod 4 =? 0) && (negb (y mod 100 =? 0) || (y mod 400 =? 0)).

Definition days_in_month (y m : Z) : Z :=
  if m =? 2 then (if is_leap y then 29 else 28)
  else if (m =? 4) || (m =? 6) || (m =? 9) || (m =? 11) then 30
  else 31.

(** The checks of the [datetime] constructor that the pattern does not
    already enforce. *)
Definition constructible (y m d ss : Z) : bool :=
  (1 <=? y) && (d <=? days_in_month y m) && (ss <=? 59).

Notation "' p <- c ;; k" := (match c with Some p => k | None => None end)
  (at level 61, p pattern, c at next level, right associativity).

(** [None] stands for [ValueError]. *)
Definition strptime (s : string) : option datetime :=
  ' (y, r) <- field_Y s ;;
  ' r <- literal "-" r ;;
  ' (m, r) <- field_m r ;;
  ' r <- literal "-" r ;;
  ' (d, r) <- field_d r ;;
  ' r <- literal_T r ;;
  ' (hh, r) <- field_H r ;;
  ' r <- literal ":" r ;;
  ' (mm, r) <- field_M r ;;
  ' r <- literal ":" r ;;
  ' (ss, r) <- field_S r ;;
  match r with
  | EmptyString =>
      if constructible y m d ss
      then Some (mk_datetime (mk_date y m d) hh mm ss)
      else None
  | String _ _ => None
  end.

Definition two_digit_text (n : Z) : string :=
  String (PyStr.digit_char (n / 10)) (String (PyStr.digit_char (n mod 10)) "").

(** The timestamp of the journey log for given fields, every field
    zero-padded: [YYYY-MM-DDTHH:MM:SS]. *)
Definition timestamp_text (t : datetime) : string :=
  two_digit_text (year (dt_date t) / 100) ++ two_digit_text (year (dt_date t) mod 100)
  ++ "-" ++ two_digit_text (month (dt_date t))
  ++ "-" ++ two_digit_text (day (dt_date t))
  ++ "T" ++ two_digit_text (hour t)
  ++ ":" ++ two_digit_text (minute t)
  ++ ":" ++ two_digit_text (second t).

(** The values a [datetime] with second precision can hold. *)
Definition well_formed (t : datetime) : Prop :=
  1 <= year (dt_date t) <= 9999 /\
  1 <= month (dt_date t) <= 12 /\
  1 <= day (dt_date t) <= days_in_month (year (dt_date t)) (month (dt_date t)) /\
  0 <= hour t <= 23 /\ 0 <= minute t <= 59 /\ 0 <= second t <= 59.

End Strptime.

(** [journeys_per_user[user_id]] on the [defaultdict]: a missing key is
    first bound to an empty list. *)
Definition touch (journeys : dict (list journey)) (user_id : string)
  : dict (list journey) :=
  match get journeys user_id with
  | Some _ => journeys
  | None => set journeys user_id []
  end.

Definition journeys_of (journeys : dict (list journey)) (user_id : string)
  : list journey :=
  match get journeys user_id with
  | Some l => l
  | None => []
  end.

(** The loop of [read_journey_data].  A row that does not unpack into four
    fields, or whose timestamp does not parse, raises [ValueError].  The
    user's list is looked up (and created if missing) before the station
    is: an unknown station raises [KeyError] with the user's entry already
    there. *)
Fixpoint store_journeys (rows : list (list string)) (zones : dict Z)
    (journeys : dict (list journey)) : dict (list journey) * outcome :=
  match rows with
  | [] => (journeys, Done)
  | [user_id; station; direction; timestamp] :: rest =>
      match Strptime.strptime timestamp with
      | None => (journeys, Raised (Builtin ValueError))
      | Some timestamp =>
          let journeys := touch journeys user_id in
          match get zones station with
          | None => (journeys, Raised (KeyError station))
          | Some zone =>
              store_journeys rest zones
                (set journeys user_id
                   (journeys_of journeys user_id ++ [(zone, direction, timestamp)]))
          end
      end
  | _ :: _ => (journeys, Raised (Builtin ValueError))
  end.

(** [read_journey_data]. *)
Definition read_journey_data (file : csv_file) (sys : MassTransitBillingSystem)
  : MassTransitBillingSystem * outcome :=
  match file with
  | None => (sys, Raised (Builtin OSError))
  | Some rows =>
      let '(journeys, r) :=
        store_journeys (tl rows) (station_to_zone sys) (journeys_per_user sys) in
      (mk_system (station_to_zone sys) journeys (user_bills sys), r)
  end.

(** [process_billing]: the four steps in order; an exception ends the run.
    The result holds the system, the contents of the destination and the
    outcome.  [sink] and [stdout] are the behaviour of the output file and
    of the closing [print] during the run. *)
Definition process_billing (zone_map_file journey_data_file : csv_file)
    (sink : sink_behaviour) (stdout : result unit)
    (destination : option contents) (sys : MassTransitBillingSystem)
  : MassTransitBillingSystem * option contents * outcome :=
  let '(sys1, r1) := read_zone_map zone_map_file sys in
  match r1 with
  | Raise e => (sys1, destination, Raised (Builtin e))
  | Ok _ =>
      let '(sys2, r2) := read_journey_data journey_data_file sys1 in
      match r2 with
      | Raised e => (sys2, destination, Raised e)
      | Done =>
          let '(sys3, r3) := calculate_billing_amounts_per_user sys2 in
          match r3 with
          | Raise e => (sys3, destination, Raised (Builtin e))
          | Ok _ =>
              let '(destination', r4) :=
                write_billing_output sys3 sink stdout destination in
              (sys3, destination', outcome_of r4)
          end
      end
  end.

(** The journey log of the test suite. *)
Definition fixture_journey_data : csv_file :=
  Some [ ["user_id"; "station"; "direction"; "time"];
         ["user1"; "station1"; "IN"; "2022-04-04T09:40:00"];
         ["user2"; "station3"; "IN"; "2022-04-04T09:50:00"];
         ["user2"; "station1"; "OUT"; "2022-04-04T10:50:00"];
         ["user1"; "station3"; "OUT"; "2022-04-04T13:55:00"];
         ["user3"; "station4"; "IN"; "2022-04-06T05:10:00"];
         ["user3"; "station2"; "OUT"; "2022-04-06T07:40:00"];
         ["user1"; "station1"; "IN"; "2022-04-07T09:40:00"];
         ["user1"; "station1"; "OUT"; "2022-04-07T09:45:00"];
         ["user3"; "station2"; "OUT"; "2022-04-10T07:40:00"] ].

(** ** Vocabulary of the further properties *)

(** The bill of a user who only ever tapped in, [n] times. *)
Definition entries_only_bill (n : Z) : float :=
  min f100_00
    (add f0_00 (round2 (min f15_00 (add f0_00 (round2 (mul f5_00 (of_int n))))))).

(** No event of the list is dated later than [d]. *)
Definition none_later_than (d : date) (js : list journey) : Prop :=
  Forall (fun j => date_gtb (dt_date (timestamp_of j)) d = false) js.

(** The journey that a row of the journey log stands for, with its user,
    when the row has four fields, a timestamp that parses and a station
    of the zone map. *)
Definition journey_of_row (zones : dict Z) (row : list string)
  : option (string * journey) :=
  match row with
  | [user_id; station; direction; timestamp] =>
      match Strptime.strptime timestamp, get zones station with
      | Some t, Some zone => Some (user_id, (zone, direction, t))
      | _, _ => None
      end
  | _ => None
  end.

(** The journeys of one user among the rows, in the order of the rows. *)
Definition journeys_in (zones : dict Z) (user_id : string)
    (rows : list (list string)) : list journey :=
  flat_map (fun row =>
              match journey_of_row zones row with
              | Some (u, j) => if (u =? user_id)%string then [j] else []
              | None => []
              end) rows.

Definition row_reads (zones : dict Z) (row : list string) : Prop :=
  journey_of_row zones row <> None.

(** No user is bound to an empty list of journeys. *)
Definition lists_non_empty (journeys : dict (list journey)) : Prop :=
  Forall (fun t => snd t <> []) journeys.

(** A row of the zone map with two fields, the second an integer that is
    at least 1. *)
Definition zone_row_positive (row : list string) : Prop :=
  exists (station zone : string) (z : Z),
    row = [station; zone] /\ PyStr.to_int zone = Some z /\ 1 <= z.

(** A row of the journey log with four fields, a timestamp that parses
    and a station that heads some row of the zone map. *)
Definition journey_row_known (zone_rows : list (list string))
    (row : list string) : Prop :=
  exists (user_id station direction timestamp : string),
    row = [user_id; station; direction; timestamp] /\
    Strptime.strptime timestamp <> None /\
    In (Some station) (map (@hd_error string) zone_rows).


(** * Sanity checks against the interpreter and the test suite *)

Example literals_match :
  map Prim2SF [0.10; 0.30; 0.50; 0.80; 2.0; 5.00; 15.00; 100.00]%float
  = [f0_10; f0_30; f0_50; f0_80; f2_00; f5_00; f15_00; f100_00].
Proof. vm_compute. reflexivity. Qed.

Example literals_are_valid :
  forallb valid
    [f0_00; f0_10; f0_30; f0_50; f0_80; f2_00; f5_00; f15_00; f100_00] = true.
Proof. vm_compute. reflexivity. Qed.

Example more_literals_match :
  map Prim2SF [9.9; 9.899999999999999; 3.3 + 3.3 + 3.3]%float
  = [f9_90; f9_90_pred; f9_90_pred].
Proof. vm_compute. reflexivity. Qed.

Example round2_examples :
  map round2 (map Prim2SF [2.675; 0.125; 0.375; 9.899999999999999; 3.5999999999999996; (-0.001)]%float)
  = map Prim2SF [2.67; 0.12; 0.38; 9.9; 3.6; (-0.0)]%float.
Proof. vm_compute. reflexivity. Qed.

Example fixture_bills :
  map user_bill [fixture_user1; fixture_user2; fixture_user3]
  = map (fun x => Ok (Prim2SF x)) [6.90; 3.30; 7.80]%float.
Proof. vm_compute. reflexivity. Qed.

Example fixture_zone_map_loaded :
  read_zone_map fixture_zone_map new_system
  = (mk_system [("station1", 1); ("station2", 2); ("station3", 3); ("station4", 4)]
       empty empty, Ok tt).
Proof. vm_compute. reflexivity. Qed.

Example fixture_report :
  let sys := mk_system empty fixture_journeys empty in
  let '(sys', _) := calculate_billing_amounts_per_user sys in
  write_billing_output sys' sink_ok (Ok tt) None
  = (Some (complete [ ["user1"; "6.90"]; ["user2"; "3.30"]; ["user3"; "7.80"] ]),
     Ok tt).
Proof. vm_compute. reflexivity. Qed.

Example to_int_examples :
  map PyStr.to_int ["12"; " -3 "; "+0"; "007"; "1_000"; ""; "1.5"; "_1"; "1__0"; "- 1"; "x"]
  = [Some 12; Some (-3); Some 0; Some 7; Some 1000; None; None; None; None; None; None].
Proof. vm_compute. reflexivity. Qed.

Example to_int_digit_limit :
  let digits (n : nat) := String.concat "" (repeat "1" n) in
  map (fun s => match PyStr.to_int s with Some _ => true | None => false end)
    [digits 4300%nat; digits 4301%nat;
     (" -" ++ digits 4300%nat ++ " ")%string;
     ("0" ++ digits 4300%nat)%string;
     String.concat "_" (repeat "1" 4300%nat);
     String.concat "_" (repeat "1" 4301%nat)]
  = [true; false; true; false; true; false].
Proof. vm_compute. reflexivity. Qed.

Example format_2f_examples :
  map PyStr.format_2f (map Prim2SF [6.9; 100.0; 0.125; 2.675; (-0.001); 1234.5; 0.0]%float)
  = ["6.90"; "100.00"; "0.12"; "2.67"; "-0.00"; "1234.50"; "0.00"].
Proof. vm_compute. reflexivity. Qed.

(** * Facts about binary64 arithmetic *)

Section Rounding.

Lemma fexp_binary64 (z : Z) : fexp prec emax z = Z.max (z - 53) (-1074).
Proof. reflexivity. Qed.

Lemma digits2_pos_size (p : positive) : digits2_pos p = Pos.size p.
Proof. induction p as [p IH|p IH|]; cbn; congruence. Qed.

Lemma Zdigits2_log2 (m : Z) : 0 < m -> Zdigits2 m = Z.log2 m + 1.
Proof.
  destruct m as [|p|p]; try lia. intros _.
  cbn [Zdigits2]. rewrite digits2_pos_size.
  destruct p as [p|p|]; cbn [Z.log2 Pos.size]; lia.
Qed.

Lemma Zdigits2_nonneg (m : Z) : 0 <= Zdigits2 m.
Proof. destruct m; cbn; lia. Qed.

Lemma Zdigits2_pos (p : positive) : 1 <= Zdigits2 (Zpos p).
Proof. cbn. lia. Qed.

Lemma Zdigits2_le (a b : Z) : 0 <= a -> a <= b -> Zdigits2 a <= Zdigits2 b.
Proof.
  intros Ha Hab. destruct (Z.eq_dec a 0) as [->|Hne].
  - apply Zdigits2_nonneg.
  - rewrite !Zdigits2_log2 by lia.
    pose proof (Z.log2_le_mono a b Hab). lia.
Qed.

Lemma shr_1_nonneg (mrs : shr_record) :
  0 <= shr_m mrs -> 0 <= shr_m (shr_1 mrs).
Proof.
  destruct mrs as [m r s]. simpl.
  destruct m as [|p|p]; simpl; try lia.
  destruct p; simpl; lia.
Qed.

Lemma iter_shr_1_nonneg (p : positive) :
  forall mrs, 0 <= shr_m mrs -> 0 <= shr_m (iter_pos shr_1 p mrs).
Proof.
  induction p as [p IH|p IH|]; intros mrs H; simpl.
  - apply IH, IH, shr_1_nonneg, H.
  - apply IH, IH, H.
  - apply shr_1_nonneg, H.
Qed.

(** One shift to the right removes one binary digit. *)
Lemma shr_1_digits (mrs : shr_record) :
  0 <= shr_m mrs ->
  Zdigits2 (shr_m (shr_1 mrs)) = Z.max 0 (Zdigits2 (shr_m mrs) - 1).
Proof.
  destruct mrs as [m r s]. cbn [shr_m]. intros Hm.
  destruct m as [|p|p]; [reflexivity| |lia].
  destruct p as [p|p|]; cbn [shr_1 shr_m Zdigits2 digits2_pos]; lia.
Qed.

Lemma iter_shr_1_digits (p : positive) :
  forall mrs,
    0 <= shr_m mrs ->
    Zdigits2 (shr_m (iter_pos shr_1 p mrs))
    = Z.max 0 (Zdigits2 (shr_m mrs) - Zpos p).
Proof.
  induction p as [p IH|p IH|]; intros mrs H; cbn [iter_pos].
  - rewrite IH by (apply iter_shr_1_nonneg, shr_1_nonneg, H).
    rewrite IH by (apply shr_1_nonneg, H).
    rewrite shr_1_digits by exact H. lia.
  - rewrite IH by (apply iter_shr_1_nonneg, H).
    rewrite IH by exact H. lia.
  - rewrite shr_1_digits by exact H. lia.
Qed.

Lemma shr_m_of_loc (m : Z) (l : location) : shr_m (shr_record_of_loc m l) = m.
Proof. destruct l as [|[ | | ]]; reflexivity. Qed.

Lemma shr_fexp_canonical (m e : Z) (l : location) :
  0 <= m -> e <= fexp prec emax (Zdigits2 m + e) ->
  0 <= shr_m (fst (shr_fexp prec emax m e l)) /\
  canonical (shr_m (fst (shr_fexp prec emax m e l)))
            (snd (shr_fexp prec emax m e l)).
Proof.
  intros Hm He. unfold shr_fexp, shr, canonical.
  pose proof (Zdigits2_nonneg m) as Hd.
  destruct (fexp prec emax (Zdigits2 m + e) - e) as [|p|p] eqn:E;
    cbn [fst snd]; rewrite ?shr_m_of_loc.
  - split; [exact Hm|]. lia.
  - split; [apply iter_shr_1_nonneg; rewrite shr_m_of_loc; exact Hm|].
    rewrite iter_shr_1_digits by (rewrite shr_m_of_loc; exact Hm).
    rewrite shr_m_of_loc. rewrite fexp_binary64 in *. lia.
  - lia.
Qed.

Lemma round_nearest_even_bounds (m : Z) (l : location) :
  m <= round_nearest_even m l <= m + 1.
Proof.
  destruct l as [|[ | | ]]; simpl; try lia.
  destruct (Z.even m); lia.
Qed.

Lemma fexp_le (a b : Z) : a <= b -> fexp prec emax a <= fexp prec emax b.
Proof. intros H. rewrite !fexp_binary64. lia. Qed.

(** Rounding a non-negative mantissa whose exponent is not above the
    canonical one gives a zero, an infinity or a canonical finite number,
    of the sign asked for. *)
Lemma binary_round_aux_valid (sx : bool) (mx ex : Z) (lx : location) :
  0 <= mx -> ex <= fexp prec emax (Zdigits2 mx + ex) ->
  valid (binary_round_aux prec emax sx mx ex lx) = true /\
  (binary_round_aux prec emax sx mx ex lx = S754_zero sx \/
   binary_round_aux prec emax sx mx ex lx = S754_infinity sx \/
   exists m e, binary_round_aux prec emax sx mx ex lx = S754_finite sx m e).
Proof.
  intros Hm He. unfold binary_round_aux.
  destruct (shr_fexp_canonical mx ex lx Hm He) as [H1 C1].
  destruct (shr_fexp prec emax mx ex lx) as [mrs' e'] eqn:E1.
  cbn [fst snd] in H1, C1.
  pose proof (round_nearest_even_bounds (shr_m mrs') (loc_of_shr_record mrs')) as B.
  set (m2 := round_nearest_even (shr_m mrs') (loc_of_shr_record mrs')) in *.
  assert (H2 : 0 <= m2) by lia.
  assert (He2 : e' <= fexp prec emax (Zdigits2 m2 + e')).
  { unfold canonical in C1. rewrite <- C1 at 1. apply fexp_le.
    pose proof (Zdigits2_le (shr_m mrs') m2 H1 ltac:(lia)). lia. }
  destruct (shr_fexp_canonical m2 e' loc_Exact H2 He2) as [H3 C3].
  destruct (shr_fexp prec emax m2 e' loc_Exact) as [mrs'' e''] eqn:E2.
  cbn [fst snd] in H3, C3.
  destruct (shr_m mrs'') as [|m|m] eqn:E3.
  - split; [reflexivity|left; reflexivity].
  - destruct (e'' <=? emax - prec) eqn:Eb.
    + split; [|right; right; eauto].
      unfold valid, SpecFloat.valid_binary, bounded, canonical_mantissa.
      unfold canonical in C3. cbn [Zdigits2] in C3.
      rewrite C3, Z.eqb_refl, Eb. reflexivity.
    + split; [reflexivity|right; left; reflexivity].
  - lia.
Qed.

Lemma digits2_pos_iter_xO (m d : positive) :
  Zpos (digits2_pos (Pos.iter xO m d)) = Zpos (digits2_pos m) + Zpos d.
Proof.
  induction d as [|d IH] using Pos.peano_ind.
  - cbn. lia.
  - rewrite Pos.iter_succ. cbn [digits2_pos]. lia.
Qed.

Lemma binary_round_valid (sx : bool) (mx : positive) (ex : Z) :
  valid (binary_round prec emax sx mx ex) = true /\
  (binary_round prec emax sx mx ex = S754_zero sx \/
   binary_round prec emax sx mx ex = S754_infinity sx \/
   exists m e, binary_round prec emax sx mx ex = S754_finite sx m e).
Proof.
  unfold binary_round, shl_align.
  destruct (fexp prec emax (Zpos (digits2_pos mx) + ex) - ex) as [|d|d] eqn:E;
    apply binary_round_aux_valid; try lia; cbn [Zdigits2].
  - lia.
  - lia.
  - rewrite digits2_pos_iter_xO.
    replace (Zpos (digits2_pos mx) + Zpos d
             + fexp prec emax (Zpos (digits2_pos mx) + ex))
      with (Zpos (digits2_pos mx) + ex) by lia.
    lia.
Qed.

End Rounding.

Section Arithmetic.

Lemma amount_ok_nonneg (x : float) : amount_ok x = true -> nonneg x = true.
Proof. unfold amount_ok. intros H. apply andb_true_iff in H. tauto. Qed.

Lemma amount_ok_valid (x : float) : amount_ok x = true -> valid x = true.
Proof. unfold amount_ok. intros H. apply andb_true_iff in H. tauto. Qed.

Lemma leb_zero_nonneg (x : float) : leb f0_00 x = nonneg x.
Proof. destruct x as [s|s| |s m e]; try destruct s; reflexivity. Qed.

Lemma rounded_amount_ok (x : float) :
  valid x = true /\
  (x = S754_zero false \/ x = S754_infinity false \/
   exists m e, x = S754_finite false m e) ->
  amount_ok x = true.
Proof.
  intros [Hv [->|[->|(m & e & ->)]]]; unfold amount_ok; rewrite Hv; reflexivity.
Qed.

Lemma valid_finite_canonical (s : bool) (m : positive) (e : Z) :
  valid (S754_finite s m e) = true ->
  canonical (Zpos m) e /\ e <= emax - prec.
Proof.
  unfold valid, SpecFloat.valid_binary, bounded, canonical_mantissa, canonical.
  intros H. apply andb_true_iff in H. destruct H as [H1 H2].
  apply Z.eqb_eq in H1. apply Z.leb_le in H2. split; assumption.
Qed.

Lemma binary_normalize_amount_ok (m e : Z) :
  0 <= m -> amount_ok (binary_normalize prec emax m e false) = true.
Proof.
  intros Hm. destruct m as [|p|p]; [reflexivity| |lia].
  apply rounded_amount_ok, binary_round_valid.
Qed.

Lemma of_int_amount_ok (n : Z) : 0 <= n -> amount_ok (of_int n) = true.
Proof. apply binary_normalize_amount_ok. Qed.

Lemma add_amount_ok (x y : float) :
  amount_ok x = true -> amount_ok y = true -> amount_ok (add x y) = true.
Proof.
  destruct x as [sx|[|]| |[|] mx ex]; try discriminate;
    destruct y as [sy|[|]| |[|] my ey]; try discriminate;
    intros Hx Hy; try exact Hx; try exact Hy.
  - destruct sx, sy; reflexivity.
  - unfold add, SFadd. cbn [cond_Zopp].
    apply binary_normalize_amount_ok. lia.
Qed.

Lemma Zdigits2_mul (a b : positive) :
  Zdigits2 (Zpos a) + Zdigits2 (Zpos b) - 1 <= Zdigits2 (Zpos (a * b)).
Proof.
  rewrite !Zdigits2_log2 by lia.
  pose proof (Z.log2_mul_below (Zpos a) (Zpos b) ltac:(lia) ltac:(lia)).
  rewrite Pos2Z.inj_mul. lia.
Qed.

Lemma mul_amount_ok (x y : float) :
  is_finite x = true -> x <> S754_zero true -> x <> S754_zero false ->
  amount_ok x = true -> amount_ok y = true -> amount_ok (mul x y) = true.
Proof.
  destruct x as [sx|[|]| |[|] mx ex]; try discriminate;
    try (destruct sx; congruence).
  intros _ _ _ Hx.
  destruct y as [sy|[|]| |[|] my ey]; try discriminate; intros Hy.
  - destruct sy; reflexivity.
  - reflexivity.
  - unfold mul, SFmul. cbn [xorb].
    apply rounded_amount_ok, binary_round_aux_valid; [lia|].
    apply amount_ok_valid, valid_finite_canonical in Hx, Hy.
    destruct Hx as [Cx _], Hy as [Cy _]. unfold canonical in Cx, Cy.
    pose proof (Zdigits2_mul mx my) as D.
    pose proof (Zdigits2_pos mx). pose proof (Zdigits2_pos my).
    rewrite fexp_binary64 in *. lia.
Qed.

End Arithmetic.

Section Division.

(** The quotient that [k / 100] is rounded from has enough digits: its
    exponent is not above the canonical one. *)
Lemma div_core_by_100 (k : positive) :
  let '(q, e, _) := SFdiv_core_binary prec emax (Zpos k) 0 100 0 in
  0 <= q /\ e <= fexp prec emax (Zdigits2 q + e).
Proof.
  unfold SFdiv_core_binary.
  change (Zdigits2 100) with 7.
  pose proof (Zdigits2_pos k) as Hd1.
  rewrite (Zdigits2_log2 (Zpos k)) in * by lia.
  set (l1 := Z.log2 (Zpos k)) in *.
  rewrite fexp_binary64.
  set (e' := Z.min (Z.max (l1 + 1 + 0 - (7 + 0) - 53) (-1074)) (0 - 0)).
  assert (He' : e' = Z.min (l1 - 59) 0) by (unfold e'; lia).
  set (s := 0 - 0 - e').
  assert (Hs : s = Z.max (59 - l1) 0) by (unfold s; lia).
  set (m' := match s with
             | 0 => Zpos k
             | Zpos _ => Z.shiftl (Zpos k) s
             | Zneg _ => 0
             end).
  assert (Hm' : m' = Zpos k * 2 ^ s).
  { unfold m'. destruct s as [|p|p] eqn:Es; [lia| |lia].
    apply Z.shiftl_mul_pow2. lia. }
  assert (Hlog : Z.log2 m' = l1 + s).
  { rewrite Hm', Z.log2_mul_pow2 by lia. unfold l1. lia. }
  assert (Hpos : 0 < m').
  { rewrite Hm'. apply Z.mul_pos_pos; [lia|]. apply Z.pow_pos_nonneg; lia. }
  destruct (Z.div_eucl m' 100) as [q r] eqn:E.
  assert (Hq : q = m' / 100) by (unfold Z.div; rewrite E; reflexivity).
  assert (H128 : m' / 2 ^ 7 <= q).
  { rewrite Hq. apply Z.div_le_compat_l; lia. }
  assert (Hl128 : Z.log2 (m' / 2 ^ 7) = l1 + s - 7).
  { rewrite <- Z.shiftr_div_pow2 by lia.
    rewrite Z.log2_shiftr by lia. lia. }
  assert (H52 : 2 ^ 52 <= m' / 2 ^ 7).
  { pose proof (Z.log2_spec (m' / 2 ^ 7)) as Hspec.
    destruct (Z.le_gt_cases (m' / 2 ^ 7) 0) as [Hneg|Hp].
    - rewrite Z.log2_nonpos in Hl128 by exact Hneg. lia.
    - specialize (Hspec Hp). rewrite Hl128 in Hspec.
      eapply Z.le_trans; [|apply Hspec].
      apply Z.pow_le_mono_r; lia. }
  assert (Hqpos : 0 < q).
  { assert (0 < 2 ^ 52) by (apply Z.pow_pos_nonneg; lia). lia. }
  split; [lia|].
  rewrite (Zdigits2_log2 q Hqpos), fexp_binary64.
  pose proof (Z.log2_le_mono _ _ H128) as Hmono.
  lia.
Qed.

Lemma div_by_100_amount_ok (k : positive) :
  amount_ok (div (S754_finite false k 0) (S754_finite false 100 0)) = true.
Proof.
  unfold div, SFdiv. pose proof (div_core_by_100 k) as H.
  destruct (SFdiv_core_binary prec emax (Zpos k) 0 100 0) as [[q e] l].
  destruct H as [Hq He]. cbn [xorb].
  apply rounded_amount_ok, binary_round_aux_valid; assumption.
Qed.

Lemma round2_amount_ok (x : float) :
  amount_ok x = true -> amount_ok (round2 x) = true.
Proof.
  destruct x as [sx|[|]| |[|] mx ex]; try discriminate; intros Hx; try exact Hx.
  unfold round2. destruct (hundredths mx ex); try reflexivity.
  apply div_by_100_amount_ok.
Qed.

Lemma min_amount_ok (a b : float) :
  amount_ok a = true -> amount_ok b = true -> amount_ok (min a b) = true.
Proof. intros Ha Hb. unfold min. destruct (ltb b a); assumption. Qed.

Lemma ltb_leb (a b : float) : ltb a b = true -> leb a b = true.
Proof.
  unfold ltb, leb, SFltb, SFleb.
  destruct (SFcompare a b) as [[ | | ]|]; congruence.
Qed.

(** [min(a, b) <= a] as soon as [a] is a number. *)
Lemma min_le_left (a b : float) : leb a a = true -> leb (min a b) a = true.
Proof.
  intros Ha. unfold min. destruct (ltb b a) eqn:E; [apply ltb_leb, E|exact Ha].
Qed.

End Division.

Section DailyCap.

Lemma valid_mantissa_below_2_53 (s : bool) (m : positive) (e : Z) :
  valid (S754_finite s m e) = true -> Zpos m < 2 ^ 53.
Proof.
  intros H. apply valid_finite_canonical in H. destruct H as [C _].
  unfold canonical in C. rewrite fexp_binary64 in C.
  rewrite Zdigits2_log2 in C by lia.
  pose proof (Z.log2_spec (Zpos m) ltac:(lia)) as [_ B].
  eapply Z.lt_le_trans; [exact B|].
  apply Z.pow_le_mono_r; lia.
Qed.

(** The rounded number of hundredths is at most [c] when the exact value
    is at most [c / 100]. *)
Lemma hundredths_le (m p : positive) (c : Z) :
  Zpos m * 100 <= c * 2 ^ Zpos p ->
  hundredths m (Zneg p) <= c.
Proof.
  intros H. unfold hundredths.
  assert (Hd : 0 < 2 ^ Zpos p) by (apply Z.pow_pos_nonneg; lia).
  set (d := 2 ^ Zpos p) in *. set (n := Zpos m * 100) in *.
  pose proof (Z.div_mod n d ltac:(lia)) as E.
  pose proof (Z.mod_pos_bound n d Hd) as B.
  assert (Hq : n / d <= c) by (apply Z.div_le_upper_bound; lia).
  destruct (Z.eq_dec (n / d) c) as [Q|Q].
  - assert (R : n mod d = 0) by nia.
    rewrite R. replace (2 * 0 ?= d) with Lt by (symmetry; apply Z.compare_lt_iff; lia).
    lia.
  - destruct (2 * (n mod d) ?= d); [destruct (Z.even (n / d))| |]; lia.
Qed.

Lemma hundredths_nonneg (m : positive) (e : Z) : 0 <= hundredths m e.
Proof.
  unfold hundredths. destruct e as [|p|p].
  - lia.
  - pose proof (Z.pow_pos_nonneg 2 (Zpos p)). nia.
  - assert (Hd : 0 < 2 ^ Zpos p) by (apply Z.pow_pos_nonneg; lia).
    assert (Hq : 0 <= Zpos m * 100 / 2 ^ Zpos p) by (apply Z.div_pos; lia).
    destruct (2 * ((Zpos m * 100) mod 2 ^ Zpos p) ?= 2 ^ Zpos p);
      [destruct (Z.even _)| |]; lia.
Qed.

Lemma all_upto_spec (f : Z -> bool) (n : nat) :
  all_upto f n = true -> forall k, 1 <= k <= Z.of_nat n -> f k = true.
Proof.
  induction n as [|n IH]; intros H k Hk; [lia|].
  cbn [all_upto] in H. apply andb_true_iff in H. destruct H as [H1 H2].
  destruct (Z.eq_dec k (Z.of_nat (S n))) as [->|N]; [exact H1|].
  apply IH; [exact H2|lia].
Qed.

Lemma hundredths_up_to_1500_le_15 :
  all_upto (fun k => leb (hundredths_to_float k) f15_00) 1500 = true.
Proof. vm_compute. reflexivity. Qed.

(** Rounding to two decimals does not take an amount above the daily cap. *)
Lemma round2_le_15 (x : float) :
  amount_ok x = true -> leb x f15_00 = true -> leb (round2 x) f15_00 = true.
Proof.
  destruct x as [sx|[|]| |[|] m e].
  all: try (intros H; discriminate H).
  { intros _ Hle. exact Hle. }
  { intros _ Hle. discriminate Hle. }
  intros Hx Hle.
  apply amount_ok_valid, valid_mantissa_below_2_53 in Hx. rename Hx into Hm.
  assert (Hk : hundredths m e <= 1500).
  { unfold leb, SFleb, SFcompare, f15_00 in Hle.
    destruct (e ?= -49) eqn:Ee; try discriminate.
    - apply Z.compare_eq in Ee. subst e.
      apply hundredths_le.
      change (2 ^ 49) with 562949953421312.
      destruct (Pos.compare_cont Eq m 8444249301319680) eqn:Em;
        try discriminate Hle.
      + apply Pos.compare_eq in Em. subst m. lia.
      + pose proof (proj1 (Pos.compare_lt_iff _ _) Em) as Lm.
        apply Pos2Z.pos_lt_pos in Lm. lia.
    - pose proof (proj1 (Z.compare_lt_iff _ _) Ee) as Le.
      destruct e as [|p|p]; try lia.
      apply hundredths_le.
      assert (2 ^ 50 <= 2 ^ Zpos p) by (apply Z.pow_le_mono_r; lia).
      change (2 ^ 53) with 9007199254740992 in Hm.
      change (2 ^ 50) with 1125899906842624 in H. lia. }
  pose proof (hundredths_nonneg m e) as Hk0.
  unfold round2.
  destruct (hundredths m e) as [|k|k] eqn:E.
  - reflexivity.
  - apply (all_upto_spec _ _ hundredths_up_to_1500_le_15 (Zpos k)).
    change (Z.of_nat 1500) with 1500. lia.
  - lia.
Qed.

End DailyCap.

(** * The pricing function *)

Lemma get_additional_zone_cost_tier (z : Z) :
  1 <= z -> get_additional_zone_cost (PyInt z) = Ok (Some (tier_cost z)).
Proof.
  intros Hz. unfold get_additional_zone_cost, tier_cost.
  destruct (z <=? 0) eqn:H0; [apply Z.leb_le in H0; lia|].
  destruct (z =? 1) eqn:H1; [reflexivity|].
  apply Z.eqb_neq in H1.
  destruct (z <=? 3) eqn:H3.
  - replace (2 <=? z) with true by (symmetry; apply Z.leb_le; lia). reflexivity.
  - rewrite andb_false_r.
    destruct (z <=? 5) eqn:H5.
    + replace (4 <=? z) with true
        by (symmetry; apply Z.leb_le; apply Z.leb_gt in H3; lia).
      reflexivity.
    + rewrite andb_false_r.
      replace (6 <=? z) with true
        by (symmetry; apply Z.leb_le; apply Z.leb_gt in H5; lia).
      reflexivity.
Qed.

(** C6: for every integer zone [z >= 1] the pricing function returns a
    float (it neither raises nor falls through to [None]); the float is
    0.80 for zone 1, 0.50 for zones 2-3, 0.30 for zones 4-5 and 0.10 for
    zones 6 and above, hence one of these four values. *)
Theorem additional_cost_total_on_valid_zones (z : Z) :
  1 <= z ->
  exists c : float,
    get_additional_zone_cost (PyInt z) = Ok (Some c) /\
    In c [f0_80; f0_50; f0_30; f0_10] /\
    (z = 1 -> c = f0_80) /\
    (2 <= z <= 3 -> c = f0_50) /\
    (4 <= z <= 5 -> c = f0_30) /\
    (6 <= z -> c = f0_10).
Proof.
  intros Hz. exists (tier_cost z).
  split; [apply get_additional_zone_cost_tier; exact Hz|].
  unfold tier_cost.
  destruct (z =? 1) eqn:H1.
  { apply Z.eqb_eq in H1. repeat split; intros; try lia; simpl; auto. }
  apply Z.eqb_neq in H1.
  destruct (z <=? 3) eqn:H3.
  { apply Z.leb_le in H3. repeat split; intros; try lia; simpl; auto. }
  apply Z.leb_gt in H3.
  destruct (z <=? 5) eqn:H5.
  { apply Z.leb_le in H5. repeat split; intros; try lia; simpl; auto. }
  apply Z.leb_gt in H5.
  repeat split; intros; try lia; simpl; auto.
Qed.

Lemma additional_cost_total_on_valid_zones_witness :
  exists c : float,
    get_additional_zone_cost (PyInt 4) = Ok (Some c) /\
    In c [f0_80; f0_50; f0_30; f0_10] /\
    (4 = 1 -> c = f0_80) /\
    (2 <= 4 <= 3 -> c = f0_50) /\
    (4 <= 4 <= 5 -> c = f0_30) /\
    (6 <= 4 -> c = f0_10).
Proof. apply (additional_cost_total_on_valid_zones 4). lia. Defined.

(** C7: the pricing function is non-increasing on valid zones: for
    [1 <= z1 <= z2] both calls return a float and the cost of [z1] is
    greater than or equal to the cost of [z2] (float comparison). *)
Theorem additional_cost_monotone (z1 z2 : Z) :
  1 <= z1 -> z1 <= z2 ->
  exists c1 c2 : float,
    get_additional_zone_cost (PyInt z1) = Ok (Some c1) /\
    get_additional_zone_cost (PyInt z2) = Ok (Some c2) /\
    leb c2 c1 = true.
Proof.
  intros H1 H12.
  exists (tier_cost z1), (tier_cost z2).
  split; [apply get_additional_zone_cost_tier; lia|].
  split; [apply get_additional_zone_cost_tier; lia|].
  unfold tier_cost.
  destruct (z1 =? 1) eqn:E1; destruct (z2 =? 1) eqn:E2;
    destruct (z1 <=? 3) eqn:E3; destruct (z2 <=? 3) eqn:E4;
    destruct (z1 <=? 5) eqn:E5; destruct (z2 <=? 5) eqn:E6;
    try reflexivity;
    repeat match goal with
    | H : (_ =? _) = true |- _ => apply Z.eqb_eq in H
    | H : (_ =? _) = false |- _ => apply Z.eqb_neq in H
    | H : (_ <=? _) = true |- _ => apply Z.leb_le in H
    | H : (_ <=? _) = false |- _ => apply Z.leb_gt in H
    end; lia.
Qed.

Lemma additional_cost_monotone_witness :
  exists c1 c2 : float,
    get_additional_zone_cost (PyInt 2) = Ok (Some c1) /\
    get_additional_zone_cost (PyInt 7) = Ok (Some c2) /\
    leb c2 c1 = true.
Proof. apply (additional_cost_monotone 2 7); lia. Defined.

(** * The fare engine *)

Section Engine.

Lemma date_gtb_irrefl (d : date) : date_gtb d d = false.
Proof.
  unfold date_gtb. rewrite !Z.compare_refl. apply Z.ltb_irrefl.
Qed.

Lemma rollover_same_day (st : loop_state) (ts : datetime) :
  dt_date ts = cur_day st -> rollover st ts = st.
Proof. intros E. unfold rollover. rewrite E, date_gtb_irrefl. reflexivity. Qed.

Lemma rollover_not_later (st : loop_state) (ts : datetime) :
  date_gtb (dt_date ts) (cur_day st) = false -> rollover st ts = st.
Proof. intros E. unfold rollover. rewrite E. reflexivity. Qed.

Lemma rollover_later (st : loop_state) (ts : datetime) :
  date_gtb (dt_date ts) (cur_day st) = true ->
  rollover st ts
  = mk_state (daily_journeys st) f0_00
      (add (monthly_total st) (min f15_00 (daily_total st))) (dt_date ts).
Proof. intros E. unfold rollover. rewrite E. reflexivity. Qed.

Lemma charge_in (st : loop_state) (zone : Z) :
  charge st zone "IN"
  = Ok (mk_state (zone :: daily_journeys st)
          (daily_total st) (monthly_total st) (cur_day st)).
Proof. reflexivity. Qed.


Lemma charge_out_matched (st : loop_state) (zone entry_zone : Z) (rest : list Z) :
  daily_journeys st = entry_zone :: rest ->
  charge st zone "OUT"
  = (c_in <- get_additional_zone_cost (PyInt entry_zone) ;;
     s1 <- add_returned f2_00 c_in ;;
     c_out <- get_additional_zone_cost (PyInt zone) ;;
     journey_cost <- add_returned s1 c_out ;;
     Ok (mk_state rest (add (daily_total st) (round2 journey_cost))
           (monthly_total st) (cur_day st))).
Proof. intros E. unfold charge. rewrite E. reflexivity. Qed.

Lemma charge_other (st : loop_state) (zone : Z) (direction : string) :
  direction <> "IN" -> direction <> "OUT" -> charge st zone direction = Ok st.
Proof.
  intros H1 H2. unfold charge.
  apply String.eqb_neq in H1. apply String.eqb_neq in H2.
  rewrite H1, H2. reflexivity.
Qed.

Lemma run_loop_app (st : loop_state) (a b : list journey) :
  run_loop st (a ++ b) = (st' <- run_loop st a ;; run_loop st' b).
Proof.
  revert st. induction a as [|j a IH]; intros st; [reflexivity|].
  cbn [app run_loop]. destruct (process_event st j) as [st1|e]; cbn [bind].
  - apply IH.
  - reflexivity.
Qed.

(** The costs the pricing function can return are amounts. *)
Lemma additional_cost_amount_ok (zone : py_object) (c : float) :
  get_additional_zone_cost zone = Ok (Some c) -> amount_ok c = true.
Proof.
  unfold get_additional_zone_cost. destruct zone as [z|s|]; try discriminate.
  destruct (z <=? 0); [discriminate|].
  destruct (z =? 1); [intros H; inversion H; reflexivity|].
  destruct ((2 <=? z) && (z <=? 3)); [intros H; inversion H; reflexivity|].
  destruct ((4 <=? z) && (z <=? 5)); [intros H; inversion H; reflexivity|].
  destruct (6 <=? z); [intros H; inversion H; reflexivity|discriminate].
Qed.

Lemma initial_state_ok (first : journey) : totals_ok (initial_state first).
Proof. split; reflexivity. Qed.

Lemma charge_ok (st st' : loop_state) (zone : Z) (direction : string) :
  totals_ok st -> charge st zone direction = Ok st' ->
  totals_ok st' /\ daily_increment st st' /\ monthly_total st' = monthly_total st.
Proof.
  intros [Hd Hm] H. unfold charge in H.
  destruct (direction =? "IN")%string.
  { inversion H; subst; clear H.
    split; [split; assumption|]. split; [left|]; reflexivity. }
  destruct ((direction =? "OUT")%string && is_empty (daily_journeys st)).
  { inversion H; subst; clear H.
    split; [split; cbn [daily_total monthly_total]; auto using add_amount_ok|].
    split; [|reflexivity].
    right. exists f5_00. repeat split; reflexivity. }
  destruct (direction =? "OUT")%string.
  2:{ inversion H; subst.
      split; [split; assumption|]. split; [left|]; reflexivity. }
  destruct (daily_journeys st) as [|entry_zone rest]; [discriminate|].
  destruct (get_additional_zone_cost (PyInt entry_zone)) as [[c1|]|e] eqn:E1;
    cbn [bind add_returned] in H; try discriminate.
  destruct (get_additional_zone_cost (PyInt zone)) as [[c2|]|e] eqn:E2;
    cbn [bind add_returned] in H; try discriminate.
  inversion H; subst; clear H.
  apply additional_cost_amount_ok in E1. apply additional_cost_amount_ok in E2.
  assert (Hc : amount_ok (round2 (add (add f2_00 c1) c2)) = true).
  { apply round2_amount_ok. repeat apply add_amount_ok; auto. }
  split; [split; cbn [daily_total monthly_total]; auto using add_amount_ok|].
  split; [|reflexivity].
  right. exists (round2 (add (add f2_00 c1) c2)).
  split; [|split; [exact Hc|reflexivity]].
  rewrite leb_zero_nonneg. apply amount_ok_nonneg, Hc.
Qed.

Lemma rollover_ok (st : loop_state) (ts : datetime) :
  totals_ok st -> totals_ok (rollover st ts).
Proof.
  intros [Hd Hm]. unfold rollover.
  destruct (date_gtb (dt_date ts) (cur_day st)); [|split; assumption].
  split; cbn [daily_total monthly_total]; [reflexivity|].
  apply add_amount_ok; [exact Hm|]. apply min_amount_ok; [reflexivity|exact Hd].
Qed.

Lemma process_event_ok (st st' : loop_state) (j : journey) :
  totals_ok st -> process_event st j = Ok st' -> totals_ok st'.
Proof.
  destruct j as [[zone direction] ts]. intros Hst H. unfold process_event in H.
  destruct (charge st zone direction) as [st1|e] eqn:E; [|discriminate].
  cbn [bind] in H. inversion H; subst.
  apply rollover_ok. eapply charge_ok; eauto.
Qed.

Lemma run_loop_ok (js : list journey) :
  forall st st', totals_ok st -> run_loop st js = Ok st' -> totals_ok st'.
Proof.
  induction js as [|j js IH]; intros st st' Hst H; cbn [run_loop] in H.
  - inversion H; subst. exact Hst.
  - destruct (process_event st j) as [st1|e] eqn:E; [|discriminate].
    cbn [bind] in H. eapply IH; [|exact H]. eapply process_event_ok; eauto.
Qed.

End Engine.

Section EngineTotals.

Lemma final_daily_total_ok (st : loop_state) :
  totals_ok st -> amount_ok (final_daily_total st) = true.
Proof.
  intros [Hd _]. unfold final_daily_total.
  destruct (is_empty (daily_journeys st)); [exact Hd|].
  apply add_amount_ok; [exact Hd|]. apply round2_amount_ok.
  apply mul_amount_ok; try reflexivity; try discriminate.
  apply of_int_amount_ok. lia.
Qed.

Lemma final_daily_increment (st : loop_state) :
  final_daily_total st = daily_total st \/
  exists inc, leb f0_00 inc = true /\
              final_daily_total st = add (daily_total st) inc.
Proof.
  unfold final_daily_total.
  destruct (is_empty (daily_journeys st)); [left; reflexivity|].
  right. eexists. split; [|reflexivity].
  rewrite leb_zero_nonneg. apply amount_ok_nonneg, round2_amount_ok.
  apply mul_amount_ok; try reflexivity; try discriminate.
  apply of_int_amount_ok. lia.
Qed.

Lemma capped_daily_ok (d : float) :
  amount_ok d = true ->
  amount_ok (min f15_00 d) = true /\ leb (min f15_00 d) f15_00 = true.
Proof.
  intros Hd. split.
  - apply min_amount_ok; [reflexivity|exact Hd].
  - apply min_le_left. reflexivity.
Qed.

Lemma final_flush_ok (st : loop_state) :
  totals_ok st ->
  amount_ok (final_flush st) = true /\ leb (final_flush st) f15_00 = true.
Proof.
  intros Hst. unfold final_flush.
  destruct (capped_daily_ok _ (final_daily_total_ok st Hst)) as [H1 H2].
  split; [apply round2_amount_ok, H1|apply round2_le_15; assumption].
Qed.

Lemma final_monthly_total_ok (st : loop_state) :
  totals_ok st -> amount_ok (final_monthly_total st) = true.
Proof.
  intros Hst. unfold final_monthly_total.
  apply add_amount_ok; [apply Hst|apply final_flush_ok, Hst].
Qed.

Lemma capped_monthly_bounds (m : float) :
  amount_ok m = true ->
  leb f0_00 (min f100_00 m) = true /\ leb (min f100_00 m) f100_00 = true.
Proof.
  intros Hm. split.
  - rewrite leb_zero_nonneg. apply amount_ok_nonneg.
    apply min_amount_ok; [reflexivity|exact Hm].
  - apply min_le_left. reflexivity.
Qed.

Lemma final_bill_bounds (st : loop_state) :
  totals_ok st ->
  leb f0_00 (final_bill st) = true /\ leb (final_bill st) f100_00 = true.
Proof.
  intros Hst. apply capped_monthly_bounds, final_monthly_total_ok, Hst.
Qed.

(** An amount between 0 and 100 is a finite number. *)
Lemma bounded_is_finite (x : float) :
  leb f0_00 x = true -> leb x f100_00 = true -> is_finite x = true.
Proof.
  destruct x as [s|[|]| |s m e]; try reflexivity; discriminate.
Qed.

Lemma charge_total (st : loop_state) (zone : Z) (direction : string) :
  stack_valid st -> 1 <= zone ->
  exists st', charge st zone direction = Ok st' /\ stack_valid st'.
Proof.
  intros Hs Hz. unfold charge.
  destruct (direction =? "IN")%string.
  { eexists. split; [reflexivity|]. constructor; assumption. }
  destruct (direction =? "OUT")%string; cbn [andb];
    [|exists st; split; [reflexivity|exact Hs]].
  unfold stack_valid in Hs.
  destruct (daily_journeys st) as [|entry_zone rest] eqn:E; cbn [is_empty].
  - eexists. split; [reflexivity|]. constructor.
  - inversion Hs; subst.
    rewrite (get_additional_zone_cost_tier entry_zone) by assumption.
    rewrite (get_additional_zone_cost_tier zone) by assumption.
    eexists. split; [reflexivity|]. assumption.
Qed.

Lemma rollover_stack (st : loop_state) (ts : datetime) :
  daily_journeys (rollover st ts) = daily_journeys st.
Proof.
  unfold rollover. destruct (date_gtb (dt_date ts) (cur_day st)); reflexivity.
Qed.

Lemma run_loop_total (js : list journey) :
  forall st, stack_valid st -> zones_valid js ->
  exists st', run_loop st js = Ok st' /\ stack_valid st'.
Proof.
  induction js as [|j js IH]; intros st Hs Hz.
  - exists st. split; [reflexivity|exact Hs].
  - inversion Hz as [|j' js' Hj Hjs]; subst.
    destruct j as [[zone direction] ts].
    destruct (charge_total st zone direction Hs Hj) as (st1 & E1 & Hs1).
    destruct (IH (rollover st1 ts)) as (st' & E' & Hs'); [|exact Hjs|].
    { unfold stack_valid. rewrite rollover_stack. exact Hs1. }
    exists st'. split; [|exact Hs'].
    cbn [run_loop process_event]. rewrite E1. cbn [bind]. exact E'.
Qed.

Lemma zones_valid_prefix (pre post : list journey) :
  zones_valid (pre ++ post) -> zones_valid pre.
Proof. unfold zones_valid. intros H. apply Forall_app in H. tauto. Qed.

End EngineTotals.

(** * The claims about the fare engine *)

Lemma initial_state_stack_valid (first : journey) :
  stack_valid (initial_state first).
Proof. constructor. Qed.

Lemma user_bill_unfold (first : journey) (rest : list journey) (st : loop_state) :
  run_loop (initial_state first) (first :: rest) = Ok st ->
  user_bill (first :: rest) = Ok (final_bill st).
Proof. intros H. unfold user_bill. rewrite H. reflexivity. Qed.

Lemma single_pair_costs (ca cb : float) :
  In ca [f0_80; f0_50; f0_30; f0_10] ->
  In cb [f0_80; f0_50; f0_30; f0_10] ->
  forall d : date,
    let cost := round2 (add (add f2_00 ca) cb) in
    final_bill (mk_state [] (add f0_00 cost) f0_00 d) = min f15_00 cost /\
    min f15_00 cost = cost.
Proof.
  intros Ha Hb d. cbn [In] in Ha, Hb.
  repeat match goal with
         | H : _ \/ _ |- _ => destruct H as [H|H]
         | H : False |- _ => destruct H
         end; subst; split; vm_compute; reflexivity.
Qed.

Lemma tier_cost_in (z : Z) : In (tier_cost z) [f0_80; f0_50; f0_30; f0_10].
Proof.
  unfold tier_cost.
  destruct (z =? 1); [|destruct (z <=? 3); [|destruct (z <=? 5)]];
    cbn [In]; auto.
Qed.

(** C1: a user whose journeys are one IN at zone [a] followed by one OUT at
    zone [b] on the same day, both zones valid, is billed
    [round(2.00 + additional_cost(a) + additional_cost(b), 2)], capped at
    15.00 (a cap this amount never reaches). *)
Theorem single_pair_bill (a b : Z) (t_in t_out : datetime) :
  1 <= a -> 1 <= b -> dt_date t_out = dt_date t_in ->
  exists ca cb : float,
    get_additional_zone_cost (PyInt a) = Ok (Some ca) /\
    get_additional_zone_cost (PyInt b) = Ok (Some cb) /\
    let cost := round2 (add (add f2_00 ca) cb) in
    user_bill [(a, "IN", t_in); (b, "OUT", t_out)] = Ok (min f15_00 cost) /\
    min f15_00 cost = cost.
Proof.
  intros Ha Hb Hday.
  exists (tier_cost a), (tier_cost b).
  split; [apply get_additional_zone_cost_tier, Ha|].
  split; [apply get_additional_zone_cost_tier, Hb|].
  intros cost.
  destruct (single_pair_costs _ _ (tier_cost_in a) (tier_cost_in b) (dt_date t_in))
    as [Hbill Hcap].
  split; [|exact Hcap].
  unfold user_bill. cbn [run_loop]. unfold process_event at 1.
  rewrite charge_in. cbn [bind].
  rewrite rollover_same_day by reflexivity.
  unfold process_event.
  rewrite (charge_out_matched _ b a []) by reflexivity.
  rewrite (get_additional_zone_cost_tier a Ha), (get_additional_zone_cost_tier b Hb).
  cbn [bind add_returned].
  rewrite rollover_same_day by exact Hday.
  cbn [daily_total monthly_total cur_day initial_state snd].
  f_equal. exact Hbill.
Qed.

Lemma single_pair_bill_witness :
  exists ca cb : float,
    get_additional_zone_cost (PyInt 3) = Ok (Some ca) /\
    get_additional_zone_cost (PyInt 1) = Ok (Some cb) /\
    let cost := round2 (add (add f2_00 ca) cb) in
    user_bill fixture_user2 = Ok (min f15_00 cost) /\
    min f15_00 cost = cost.
Proof.
  apply (single_pair_bill 3 1 (at_ 2022 4 4 9 50) (at_ 2022 4 4 10 50));
    [lia|lia|reflexivity].
Defined.

(** C4, as stated, fails: an event whose direction is neither IN nor OUT
    still passes through the day check that ends the loop body.  After a
    dangling OUT on 2022-04-04 (daily total 5.00), an event with direction
    TRANSFER on 2022-04-05 moves the 5.00 to the monthly total, resets the
    daily total and advances the current day. *)
Lemma unknown_direction_changes_state :
  ~ (forall (st st' : loop_state) (zone : Z) (direction : string) (ts : datetime),
        direction <> "IN" -> direction <> "OUT" ->
        process_event st (zone, direction, ts) = Ok st' ->
        st' = st).
Proof.
  intros H.
  specialize (H (mk_state [] f5_00 f0_00 (mk_date 2022 4 4))
                (mk_state [] f0_00 f5_00 (mk_date 2022 4 5))
                2 "TRANSFER" (at_ 2022 4 5 8 0)).
  discriminate H; [discriminate|discriminate|reflexivity].
Qed.

(** C4, amended: an event whose direction is neither IN nor OUT leaves the
    pending-entry stack alone and charges nothing; the state is unchanged
    when the event is not on a later day than the current one, and
    otherwise the state changes exactly as a day rollover does: the capped
    daily total goes to the monthly total, the daily total restarts at
    zero and the current day becomes the day of the event. *)
Theorem unknown_direction_only_rolls_over
    (st : loop_state) (zone : Z) (direction : string) (ts : datetime) :
  direction <> "IN" -> direction <> "OUT" ->
  charge st zone direction = Ok st /\
  process_event st (zone, direction, ts) = Ok (rollover st ts) /\
  daily_journeys (rollover st ts) = daily_journeys st /\
  (date_gtb (dt_date ts) (cur_day st) = false -> rollover st ts = st) /\
  (date_gtb (dt_date ts) (cur_day st) = true ->
   rollover st ts
   = mk_state (daily_journeys st) f0_00
       (add (monthly_total st) (min f15_00 (daily_total st))) (dt_date ts)).
Proof.
  intros H1 H2.
  pose proof (charge_other st zone direction H1 H2) as Hc.
  split; [exact Hc|].
  split; [unfold process_event; rewrite Hc; reflexivity|].
  split; [apply rollover_stack|].
  split; [apply rollover_not_later|apply rollover_later].
Qed.

Lemma unknown_direction_only_rolls_over_witness :
  let st := mk_state [4] f5_00 f0_00 (mk_date 2022 4 4) in
  let ts := at_ 2022 4 4 18 30 in
  process_event st (2, "TRANSFER", ts) = Ok st.
Proof.
  intros st ts.
  destruct (unknown_direction_only_rolls_over st 2 "TRANSFER" ts
              ltac:(discriminate) ltac:(discriminate))
    as (_ & Hp & _ & Hsame & _).
  rewrite Hp, (Hsame eq_refl). reflexivity.
Defined.


Lemma float_eq_dec (x y : float) : {x = y} + {x <> y}.
Proof.
  unfold float. decide equality;
    auto using Bool.bool_dec, Pos.eq_dec, Z.eq_dec.
Defined.







Lemma run_loop_prefix_ok (first : journey) (pre : list journey) (st : loop_state) :
  run_loop (initial_state first) pre = Ok st -> totals_ok st.
Proof. apply run_loop_ok, initial_state_ok. Qed.





(** C10: for a user with a non-empty journey sequence whose zones are all
    valid, the computation returns a bill; every pass through the loop
    body leaves the daily total as it is or adds a non-negative amount to
    it, the amount a rollover would fold is non-negative, the amounts added
    after the loop are non-negative, and the bill is a well-formed float
    that lies between 0.00 and 100.00. *)
Theorem bill_between_0_and_100 (first : journey) (rest : list journey) :
  let js := first :: rest in
  let init := initial_state first in
  zones_valid js ->
  (forall (pre post : list journey) (j : journey),
      js = pre ++ j :: post ->
      exists st st' : loop_state,
        run_loop init pre = Ok st /\
        charge st (zone_of j) (direction_of j) = Ok st' /\
        daily_increment st st' /\
        leb f0_00 (min f15_00 (daily_total st')) = true) /\
  exists st : loop_state,
    run_loop init js = Ok st /\
    (final_daily_total st = daily_total st \/
     exists inc : float,
       leb f0_00 inc = true /\ final_daily_total st = add (daily_total st) inc) /\
    leb f0_00 (final_flush st) = true /\
    user_bill js = Ok (final_bill st) /\
    valid (final_bill st) = true /\
    leb f0_00 (final_bill st) = true /\
    leb (final_bill st) f100_00 = true.
Proof.
  intros js init Hz. split.
  - intros pre post j Hsplit.
    assert (Hpre : zones_valid pre).
    { apply (zones_valid_prefix pre (j :: post)). rewrite <- Hsplit. exact Hz. }
    assert (Hj : 1 <= zone_of j).
    { unfold zones_valid in Hz. rewrite Hsplit in Hz.
      apply Forall_app in Hz. destruct Hz as [_ Hz]. inversion Hz; assumption. }
    destruct (run_loop_total pre init (initial_state_stack_valid first) Hpre)
      as (st & Hrun & Hstack).
    destruct (charge_total st (zone_of j) (direction_of j) Hstack Hj)
      as (st' & Hcharge & _).
    pose proof (run_loop_prefix_ok _ _ _ Hrun) as Hok.
    destruct (charge_ok _ _ _ _ Hok Hcharge) as (Hok' & Hinc & _).
    exists st, st'. repeat split; try assumption.
    rewrite leb_zero_nonneg. apply amount_ok_nonneg.
    apply capped_daily_ok, Hok'.
  - destruct (run_loop_total js init (initial_state_stack_valid first) Hz)
      as (st & Hrun & _).
    pose proof (run_loop_prefix_ok _ _ _ Hrun) as Hok.
    exists st.
    split; [exact Hrun|].
    split; [apply final_daily_increment|].
    split; [rewrite leb_zero_nonneg; apply amount_ok_nonneg, final_flush_ok, Hok|].
    split; [apply user_bill_unfold, Hrun|].
    split; [|apply final_bill_bounds, Hok].
    apply amount_ok_valid, min_amount_ok; [reflexivity|].
    apply final_monthly_total_ok, Hok.
Qed.

Lemma bill_between_0_and_100_witness :
  exists st : loop_state,
    run_loop (initial_state (4, "IN", at_ 2022 4 6 5 10)) fixture_user3 = Ok st /\
    user_bill fixture_user3 = Ok (final_bill st) /\
    leb f0_00 (final_bill st) = true /\
    leb (final_bill st) f100_00 = true.
Proof.
  destruct (bill_between_0_and_100 (4, "IN", at_ 2022 4 6 5 10) (tl fixture_user3))
    as (_ & st & Hrun & _ & _ & Hbill & _ & Hlo & Hhi).
  - unfold zones_valid, zone_of. repeat constructor; cbn; lia.
  - exists st. repeat split; assumption.
Defined.


(** * Loading the zone map *)

Section ZoneMap.

Lemma get_set_same {V : Type} (d : dict V) (k : string) (v : V) :
  get (set d k v) k = Some v.
Proof.
  induction d as [|[k' v'] d IH]; cbn [set get].
  - rewrite String.eqb_refl. reflexivity.
  - destruct (k' =? k)%string eqn:E; cbn [get]; rewrite E; [reflexivity|exact IH].
Qed.

Lemma get_set_other {V : Type} (d : dict V) (k k' : string) (v : V) :
  k <> k' -> get (set d k v) k' = get d k'.
Proof.
  intros Hk. induction d as [|[k0 v0] d IH]; cbn [set get].
  - apply String.eqb_neq in Hk. rewrite Hk. reflexivity.
  - destruct (k0 =? k)%string eqn:E; cbn [get].
    + apply String.eqb_eq in E. subst k0.
      apply String.eqb_neq in Hk. rewrite Hk. reflexivity.
    + rewrite IH. reflexivity.
Qed.

Lemma store_zones_loads (rows : list (list string)) :
  Forall row_loads rows ->
  forall zones, snd (store_zones rows zones) = Ok tt.
Proof.
  induction 1 as [|row rows (station & zone & z & -> & Hz) _ IH]; intros zones.
  - reflexivity.
  - cbn [store_zones]. rewrite Hz. apply IH.
Qed.

Lemma store_zones_rejects (rows : list (list string)) :
  ~ Forall row_loads rows ->
  forall zones, snd (store_zones rows zones) = Raise ValueError.
Proof.
  induction rows as [|row rows IH]; intros Hbad zones.
  - exfalso. apply Hbad. constructor.
  - destruct row as [|station [|zone [|extra row]]]; try reflexivity.
    cbn [store_zones].
    destruct (PyStr.to_int zone) as [z|] eqn:Hz; [|reflexivity].
    apply IH. intros Hrest. apply Hbad. constructor; [|exact Hrest].
    exists station, zone, z. split; [reflexivity|exact Hz].
Qed.

Lemma store_zones_keeps (rows : list (list string)) (station : string) :
  (forall row, In row rows -> hd_error row <> Some station) ->
  forall zones, get (fst (store_zones rows zones)) station = get zones station.
Proof.
  induction rows as [|row rows IH]; intros Hother zones; [reflexivity|].
  destruct row as [|station' [|zone [|extra row]]]; try reflexivity.
  cbn [store_zones].
  destruct (PyStr.to_int zone) as [z|]; [|reflexivity].
  rewrite IH by (intros row Hin; apply Hother; right; exact Hin).
  apply get_set_other. intros ->.
  apply (Hother [station; zone]); [left|]; reflexivity.
Qed.

Lemma store_zones_last_wins (pre post : list (list string))
    (station zone : string) (z : Z) :
  Forall row_loads pre ->
  PyStr.to_int zone = Some z ->
  (forall row, In row post -> hd_error row <> Some station) ->
  forall zones,
    get (fst (store_zones (pre ++ [station; zone] :: post) zones)) station = Some z.
Proof.
  induction 1 as [|row pre (station' & zone' & z' & -> & Hz') _ IH];
    intros Hz Hother zones.
  - cbn [app store_zones]. rewrite Hz.
    rewrite store_zones_keeps by exact Hother. apply get_set_same.
  - cbn [app store_zones]. rewrite Hz'. apply IH; assumption.
Qed.

End ZoneMap.

Lemma zone_map_with_non_positive_zones :
  read_zone_map (Some [ ["station"; "zone"]; ["depot"; "0"]; ["yard"; "-3"] ]) new_system
  = (mk_system [("depot", 0); ("yard", -3)] empty empty, Ok tt).
Proof. vm_compute. reflexivity. Qed.

(** C5, as stated, fails: [read_zone_map] stores whatever [int] returns.
    A zone map whose rows give zone 0 and zone -3 loads without an
    exception and both zones end up in [station_to_zone]. *)
Lemma non_positive_zones_are_stored :
  ~ (forall (header : list string) (rows : list (list string))
            (sys : MassTransitBillingSystem) (station zone : string) (z : Z),
        In [station; zone] rows ->
        PyStr.to_int zone = Some z ->
        z <= 0 ->
        snd (read_zone_map (Some (header :: rows)) sys) = Raise ValueError).
Proof.
  intros H.
  specialize (H ["station"; "zone"] [ ["depot"; "0"]; ["yard"; "-3"] ]
                new_system "depot" "0" 0 (or_introl eq_refl) eq_refl (Z.le_refl 0)).
  rewrite zone_map_with_non_positive_zones in H. discriminate H.
Qed.

(** C5, amended, for a zone map with ASCII fields: after the header, every
    row must have exactly two fields, the second of which [int] accepts (an
    integer literal of at most 4300 digits); then the load succeeds and
    the last row given for a station decides its zone, whatever its sign
    (zero and negative zones are stored).  If some row is not of that
    shape the load raises [ValueError]. *)
Theorem read_zone_map_outcome
    (header : list string) (rows : list (list string))
    (sys : MassTransitBillingSystem) :
  ascii_rows rows ->
  let outcome := read_zone_map (Some (header :: rows)) sys in
  (Forall row_loads rows ->
     snd outcome = Ok tt /\
     forall (pre post : list (list string)) (station zone : string) (z : Z),
       rows = pre ++ [station; zone] :: post ->
       PyStr.to_int zone = Some z ->
       (forall row, In row post -> hd_error row <> Some station) ->
       get (station_to_zone (fst outcome)) station = Some z) /\
  (~ Forall row_loads rows -> snd outcome = Raise ValueError).
Proof.
  intros _ outcome. subst outcome. unfold read_zone_map. cbn [tl].
  destruct (store_zones rows (station_to_zone sys)) as [zones r] eqn:E.
  cbn [fst snd station_to_zone].
  split.
  - intros Hrows. split.
    + rewrite <- (store_zones_loads rows Hrows (station_to_zone sys)), E.
      reflexivity.
    + intros pre post station zone z Hsplit Hz Hother.
      replace zones with (fst (store_zones rows (station_to_zone sys)))
        by (rewrite E; reflexivity).
      rewrite Hsplit. apply store_zones_last_wins; try assumption.
      rewrite Hsplit in Hrows. apply Forall_app in Hrows. tauto.
  - intros Hbad.
    rewrite <- (store_zones_rejects rows Hbad (station_to_zone sys)), E.
    reflexivity.
Qed.

Lemma read_zone_map_outcome_witness :
  let outcome :=
    read_zone_map (Some [ ["station"; "zone"]; ["depot"; "0"]; ["yard"; "-3"] ])
      new_system in
  snd outcome = Ok tt /\
  get (station_to_zone (fst outcome)) "depot" = Some 0 /\
  snd (read_zone_map (Some [ ["station"; "zone"]; ["depot"; "zero"] ]) new_system)
  = Raise ValueError.
Proof.
  intros outcome.
  destruct (read_zone_map_outcome ["station"; "zone"]
              [ ["depot"; "0"]; ["yard"; "-3"] ] new_system) as [Hgood _].
  { repeat constructor. }
  destruct Hgood as [Hok Hstored].
  { repeat constructor.
    - exists "depot", "0", 0. split; reflexivity.
    - exists "yard", "-3", (-3). split; reflexivity. }
  split; [exact Hok|]. split.
  - apply (Hstored [] [ ["yard"; "-3"] ] "depot" "0" 0); try reflexivity.
    intros row [<-|[]]. discriminate.
  - destruct (read_zone_map_outcome ["station"; "zone"]
                [ ["depot"; "zero"] ] new_system) as [_ Hbad].
    { repeat constructor. }
    apply Hbad. intros H. inversion H as [|row rows' (s & zn & z & Hrow & Hz) _]; subst.
    inversion Hrow; subst. discriminate Hz.
Defined.


(** * The report *)

Section Dictionaries.

Context {V : Type}.

Lemma in_keys_set (d : dict V) (k x : string) (v : V) :
  In x (keys (set d k v)) <-> In x (keys d) \/ x = k.
Proof.
  unfold keys. induction d as [|[k' v'] d IH]; cbn [set map In fst].
  - intuition congruence.
  - destruct (k' =? k)%string eqn:E; cbn [map In fst].
    + apply String.eqb_eq in E. subst k'. intuition congruence.
    + rewrite IH. tauto.
Qed.

Lemma set_NoDup (d : dict V) (k : string) (v : V) :
  NoDup (keys d) -> NoDup (keys (set d k v)).
Proof.
  unfold keys. induction d as [|[k' v'] d IH]; cbn [set map fst]; intros H.
  - constructor; [intros []|constructor].
  - inversion H as [|? ? Hnotin Hrest]; subst.
    destruct (k' =? k)%string eqn:E; cbn [map fst].
    + constructor; assumption.
    + constructor; [|apply IH, Hrest].
      intros Hin. apply (in_keys_set d k k' v) in Hin.
      apply String.eqb_neq in E. destruct Hin as [Hin| ->]; [|congruence].
      apply Hnotin, Hin.
Qed.

Lemma set_Forall (P : V -> Prop) (d : dict V) (k : string) (v : V) :
  Forall (fun t => P (snd t)) d -> P v ->
  Forall (fun t => P (snd t)) (set d k v).
Proof.
  intros Hd Hv. induction d as [|[k' v'] d IH]; cbn [set].
  - constructor; [exact Hv|constructor].
  - inversion Hd; subst.
    destruct (k' =? k)%string; constructor; auto.
Qed.

End Dictionaries.

Section Sorting.

Lemma string_lt_trans (a b c : string) :
  string_lt a b -> string_lt b c -> string_lt a c.
Proof.
  unfold string_lt, String.ltb. intros H1 H2.
  destruct (String.compare a b) eqn:E1; try discriminate.
  destruct (String.compare b c) eqn:E2; try discriminate.
  apply String_as_OT.cmp_lt in E1. apply String_as_OT.cmp_lt in E2.
  pose proof (String_as_OT.lt_trans _ _ _ E1 E2) as E3.
  apply String_as_OT.cmp_lt in E3. unfold String_as_OT.cmp in E3.
  rewrite E3. reflexivity.
Qed.

Lemma string_not_lt (a b : string) :
  (a <? b)%string = false -> a <> b -> string_lt b a.
Proof.
  unfold string_lt, String.ltb. intros H Hne.
  rewrite String.compare_antisym.
  destruct (String.compare a b) eqn:E; try discriminate.
  - apply String.compare_eq_iff in E. contradiction.
  - reflexivity.
Qed.

Lemma tuple_ltb_distinct (t t' : string * float) :
  fst t <> fst t' -> tuple_ltb t t' = (fst t <? fst t')%string.
Proof.
  intros H. unfold tuple_ltb. apply String.eqb_neq in H. rewrite H. reflexivity.
Qed.

Lemma insert_sorted_perm (t : string * float) (l : list (string * float)) :
  Permutation (insert_sorted t l) (t :: l).
Proof.
  induction l as [|t' l IH]; cbn [insert_sorted]; [reflexivity|].
  destruct (tuple_ltb t t'); [reflexivity|].
  rewrite IH. apply perm_swap.
Qed.

Lemma sorted_from_perm (l acc : list (string * float)) :
  Permutation (fold_left (fun acc t => insert_sorted t acc) l acc) (l ++ acc).
Proof.
  revert acc. induction l as [|t l IH]; intros acc; cbn [fold_left app].
  - reflexivity.
  - rewrite IH, insert_sorted_perm. symmetry. apply Permutation_middle.
Qed.

Lemma sorted_perm (l : list (string * float)) : Permutation (sorted l) l.
Proof. unfold sorted. rewrite sorted_from_perm, app_nil_r. reflexivity. Qed.

Lemma insert_sorted_HdRel (a t : string * float) (l : list (string * float)) :
  key_lt a t -> HdRel key_lt a l -> HdRel key_lt a (insert_sorted t l).
Proof.
  intros Hat Hal. destruct l as [|t' l]; cbn [insert_sorted].
  - constructor. exact Hat.
  - destruct (tuple_ltb t t'); constructor; [exact Hat|].
    inversion Hal; assumption.
Qed.

Lemma insert_sorted_Sorted (t : string * float) (l : list (string * float)) :
  ~ In (fst t) (map fst l) -> Sorted key_lt l -> Sorted key_lt (insert_sorted t l).
Proof.
  induction l as [|t' l IH]; intros Hnew Hl; cbn [insert_sorted].
  - repeat constructor.
  - assert (Hne : fst t <> fst t') by (intros E; apply Hnew; left; auto).
    rewrite (tuple_ltb_distinct _ _ Hne).
    destruct (fst t <? fst t')%string eqn:E.
    + constructor; [exact Hl|]. constructor. exact E.
    + inversion Hl; subst.
      constructor.
      * apply IH; [|assumption]. intros Hin. apply Hnew. right. exact Hin.
      * apply insert_sorted_HdRel; [|assumption].
        apply string_not_lt; assumption.
Qed.

Lemma sorted_from_Sorted (l : list (string * float)) :
  forall acc,
    NoDup (map fst l ++ map fst acc) -> Sorted key_lt acc ->
    Sorted key_lt (fold_left (fun acc t => insert_sorted t acc) l acc).
Proof.
  induction l as [|t l IH]; intros acc Hnd Hacc; cbn [fold_left].
  - exact Hacc.
  - cbn [map app] in Hnd. inversion Hnd as [|? ? Hnotin Hrest]; subst.
    apply IH.
    + eapply Permutation_NoDup; [|exact Hnd].
      rewrite (Permutation_map fst (insert_sorted_perm t acc)). cbn [map].
      apply Permutation_middle.
    + apply insert_sorted_Sorted; [|exact Hacc].
      intros Hin. apply Hnotin. apply in_or_app. right. exact Hin.
Qed.

Lemma sorted_StronglySorted (l : list (string * float)) :
  NoDup (map fst l) -> StronglySorted key_lt (sorted l).
Proof.
  intros Hnd. apply Sorted_StronglySorted.
  - intros a b c. apply string_lt_trans.
  - unfold sorted. apply sorted_from_Sorted; [|constructor].
    rewrite app_nil_r. exact Hnd.
Qed.

Lemma keys_StronglySorted (l : list (string * float)) :
  StronglySorted key_lt l -> StronglySorted string_lt (map fst l).
Proof.
  induction 1 as [|t l _ IH Hall]; cbn [map]; constructor; [exact IH|].
  apply Forall_map. exact Hall.
Qed.

End Sorting.


Section Formatting.

Import PyStr.

Lemma digit_char_is_digit (d : Z) : 0 <= d <= 9 -> is_digit (digit_char d) = true.
Proof.
  intros H.
  assert (E : d = 0 \/ d = 1 \/ d = 2 \/ d = 3 \/ d = 4 \/
              d = 5 \/ d = 6 \/ d = 7 \/ d = 8 \/ d = 9) by lia.
  repeat (destruct E as [-> | E]; [reflexivity|]). subst d. reflexivity.
Qed.

Lemma string_of_uint_digits (d : Decimal.uint) :
  all_digits (NilEmpty.string_of_uint d) = true.
Proof. induction d; cbn; auto. Qed.

Lemma of_nonneg_int_digits (n : Z) :
  all_digits (of_nonneg_int n) = true /\ of_nonneg_int n <> "".
Proof.
  unfold of_nonneg_int, NilZero.string_of_uint.
  destruct (N.to_uint (Z.to_N n)) eqn:E;
    (split; [try reflexivity; rewrite <- E at 1; try apply string_of_uint_digits
            |cbn; discriminate]).
  all: cbn [NilEmpty.string_of_uint all_digits]; rewrite string_of_uint_digits;
    reflexivity.
Qed.

Lemma digit_is_not_point (c : ascii) : is_digit c = true -> c <> "."%char.
Proof. intros H ->. discriminate H. Qed.

Lemma digit_is_not_minus (c : ascii) : is_digit c = true -> c <> "-"%char.
Proof. intros H ->. discriminate H. Qed.

Lemma digits_then_fraction_step (c : ascii) (r : string) (seen : bool) :
  is_digit c = true ->
  digits_then_fraction (String c r) seen = digits_then_fraction r true.
Proof.
  intros Hc. pose proof (digit_is_not_point c Hc) as Hp.
  cbn [digits_then_fraction].
  destruct c as [[|] [|] [|] [|] [|] [|] [|] [|]];
    try (rewrite Hc; reflexivity); try discriminate Hc; congruence.
Qed.

Lemma digits_then_fraction_ok (ds : string) (d1 d2 : ascii) :
  all_digits ds = true -> is_digit d1 = true -> is_digit d2 = true ->
  forall seen : bool,
    (ds <> "" \/ seen = true) ->
    digits_then_fraction (ds ++ String "." (String d1 (String d2 ""))) seen = true.
Proof.
  intros Hds H1 H2. induction ds as [|c ds IH]; intros seen Hseen.
  - destruct Hseen as [Hne | ->]; [congruence|].
    cbn. rewrite H1, H2. reflexivity.
  - cbn [all_digits] in Hds. apply andb_true_iff in Hds. destruct Hds as [Hc Hds].
    cbn [append]. rewrite digits_then_fraction_step by exact Hc.
    apply IH; [exact Hds|right; reflexivity].
Qed.

Lemma fraction_ok (ds : string) (d1 d2 : ascii) (s : bool) :
  all_digits ds = true -> ds <> "" ->
  is_digit d1 = true -> is_digit d2 = true ->
  has_two_fraction_digits
    ((if s then "-" else "") ++ ds ++ String "." (String d1 (String d2 ""))) = true.
Proof.
  intros Hds Hne H1 H2.
  pose proof (digits_then_fraction_ok ds d1 d2 Hds H1 H2 false (or_introl Hne)) as H.
  destruct s; cbn [append has_two_fraction_digits]; [exact H|].
  destruct ds as [|c ds]; [congruence|].
  cbn [all_digits] in Hds. apply andb_true_iff in Hds. destruct Hds as [Hc _].
  pose proof (digit_is_not_minus c Hc) as Hm.
  cbn [append] in *. unfold has_two_fraction_digits.
  destruct c as [[|] [|] [|] [|] [|] [|] [|] [|]];
    try exact H; try discriminate Hc; congruence.
Qed.

(** [format(x, ".2f")] of a finite float has exactly two fraction digits. *)
Lemma format_2f_finite (x : float) :
  is_finite x = true -> has_two_fraction_digits (format_2f x) = true.
Proof.
  destruct x as [s|s| |s m e]; try discriminate; intros _.
  - destruct s; reflexivity.
  - unfold format_2f.
    pose proof (hundredths_nonneg m e) as Hk.
    destruct (of_nonneg_int_digits (hundredths m e / 100)) as [Hd Hne].
    apply fraction_ok; try assumption; apply digit_char_is_digit.
    + pose proof (Z.mod_pos_bound (hundredths m e) 100 ltac:(lia)).
      split; [apply Z.div_pos; lia|].
      apply Z.lt_succ_r. change (Z.succ 9) with 10.
      apply Z.div_lt_upper_bound; lia.
    + pose proof (Z.mod_pos_bound (hundredths m e) 10 ltac:(lia)). lia.
Qed.

End Formatting.


Section Bills.

Lemma user_bill_finite (js : list journey) (b : float) :
  user_bill js = Ok b -> is_finite b = true.
Proof.
  unfold user_bill. destruct js as [|first rest]; [discriminate|].
  destruct (run_loop (initial_state first) (first :: rest)) as [st|e] eqn:E;
    [|discriminate].
  cbn [bind]. intros H. inversion H; subst.
  pose proof (run_loop_prefix_ok _ _ _ E) as Hok.
  destruct (final_bill_bounds st Hok). apply bounded_is_finite; assumption.
Qed.

Lemma bill_users_ok (users : list (string * list journey)) :
  forall (bills bills' : dict float) (r : result unit),
    bill_users users bills = (bills', r) ->
    NoDup (keys bills) ->
    Forall (fun t => is_finite (snd t) = true) bills ->
    NoDup (keys bills') /\ Forall (fun t => is_finite (snd t) = true) bills'.
Proof.
  induction users as [|[user_id journeys] users IH]; intros bills bills' r H Hnd Hfin.
  - inversion H; subst. split; assumption.
  - cbn [bill_users] in H.
    destruct (user_bill journeys) as [amount|e] eqn:E.
    + apply (IH _ _ _ H).
      * apply set_NoDup, Hnd.
      * apply (set_Forall (fun x => is_finite x = true)); [exact Hfin|].
        eapply user_bill_finite, E.
    + inversion H; subst. split; assumption.
Qed.

End Bills.

(** C8: the report written for the bills that
    [calculate_billing_amounts_per_user] has computed holds one row
    [user_id, amount] per billed user, the rows are in strictly ascending
    order of user identifier, and every amount is a decimal string with
    exactly two fraction digits. *)
Theorem report_is_sorted_and_formatted
    (sys sys' : MassTransitBillingSystem)
    (destination : option contents) :
  user_bills sys = empty ->
  calculate_billing_amounts_per_user sys = (sys', Ok tt) ->
  exists rows : list (list string),
    (forall stdout : result unit,
        write_billing_output sys' sink_ok stdout destination
        = (Some (complete rows), stdout)) /\
    Forall (fun row => List.length row = 2%nat) rows /\
    NoDup (keys (user_bills sys')) /\
    Permutation (map row_user rows) (keys (user_bills sys')) /\
    StronglySorted string_lt (map row_user rows) /\
    Forall (fun row => PyStr.has_two_fraction_digits (row_amount row) = true) rows.
Proof.
  intros Hempty Hcalc.
  unfold calculate_billing_amounts_per_user in Hcalc. rewrite Hempty in Hcalc.
  destruct (bill_users (items (journeys_per_user sys)) empty) as [bills r] eqn:E.
  inversion Hcalc; subst; clear Hcalc. cbn [user_bills].
  destruct (bill_users_ok _ _ _ _ E) as [Hnd Hfin]; [constructor|constructor|].
  exists (output_rows bills).
  split; [intros stdout; reflexivity|].
  unfold output_rows, items.
  pose proof (sorted_perm bills) as Hperm.
  split; [apply Forall_map, Forall_forall; reflexivity|].
  split; [exact Hnd|].
  rewrite map_map. cbn [row_user nth].
  split; [apply (Permutation_map fst Hperm)|].
  split.
  - apply keys_StronglySorted, sorted_StronglySorted, Hnd.
  - apply Forall_map. cbn [row_amount nth].
    eapply Forall_impl; [|apply (Permutation_Forall (Permutation_sym Hperm) Hfin)].
    intros t Ht. apply format_2f_finite, Ht.
Qed.

Lemma report_is_sorted_and_formatted_witness :
  exists rows : list (list string),
    write_billing_output
      (fst (calculate_billing_amounts_per_user (mk_system empty fixture_journeys empty)))
      sink_ok (Ok tt) None = (Some (complete rows), Ok tt) /\
    StronglySorted string_lt (map row_user rows) /\
    Forall (fun row => PyStr.has_two_fraction_digits (row_amount row) = true) rows.
Proof.
  destruct (report_is_sorted_and_formatted
              (mk_system empty fixture_journeys empty)
              (fst (calculate_billing_amounts_per_user
                      (mk_system empty fixture_journeys empty)))
              None eq_refl ltac:(vm_compute; reflexivity))
    as (rows & Hw & _ & _ & _ & Hs & Hf).
  exists rows. split; [apply Hw|]. split; assumption.
Defined.

Lemma two_bills_five_bytes_written :
  let sys := mk_system empty empty [("bob", f5_00); ("alice", f2_00)] in
  let before := Some (complete [ ["old"; "9.99"] ]) in
  output_rows (user_bills sys) = [ ["alice"; "2.00"]; ["bob"; "5.00"] ] /\
  write_billing_output sys (sink_fails_after 5) (Ok tt) before
  = (Some (truncated [ ["alice"; "2.00"]; ["bob"; "5.00"] ] 5), Raise OSError).
Proof. split; vm_compute; reflexivity. Qed.

(** C9, as stated, fails: the destination is emptied when it is opened and
    the text of the report reaches it through a buffer, with no temporary
    file and no cleanup.  With two bills, a destination that held other
    contents and a write that fails when five bytes have reached the file,
    the run ends with [OSError] and the destination holds the first five
    bytes of the report, the start of its first row: neither its previous
    contents nor the full report. *)
Lemma failed_write_leaves_partial_file :
  ~ (forall (sys : MassTransitBillingSystem) (sink : sink_behaviour)
            (stdout : result unit) (destination : option contents),
        fst (write_billing_output sys sink stdout destination) = destination \/
        fst (write_billing_output sys sink stdout destination)
        = Some (complete (output_rows (user_bills sys)))).
Proof.
  intros H.
  destruct two_bills_five_bytes_written as [Hrows Hwrite].
  specialize (H (mk_system empty empty [("bob", f5_00); ("alice", f2_00)])
                (sink_fails_after 5) (Ok tt)
                (Some (complete [ ["old"; "9.99"] ]))).
  rewrite Hwrite, Hrows in H. cbn [fst] in H.
  destruct H as [H|H]; discriminate H.
Qed.

(** C9, amended: writing the report is not atomic.  If the destination
    cannot be opened nothing is written and its contents stay as they
    were.  If no write fails the destination holds the full report.  If a
    write fails once the file is open, the run raises [OSError] and the
    destination, whatever it held before, holds a truncated prefix of the
    text of the report.  A normal return of [write_billing_output] means
    that the full report is in the destination. *)
Theorem write_billing_output_failure_modes
    (sys : MassTransitBillingSystem) (stdout : result unit)
    (destination : option contents) :
  let report := output_rows (user_bills sys) in
  write_billing_output sys sink_cannot_open stdout destination
  = (destination, Raise OSError) /\
  write_billing_output sys sink_ok stdout destination
  = (Some (complete report), stdout) /\
  (forall bytes : nat,
      write_billing_output sys (sink_fails_after bytes) stdout destination
      = (Some (truncated report bytes), Raise OSError)) /\
  (forall sink : sink_behaviour,
      snd (write_billing_output sys sink stdout destination) = Ok tt ->
      sink = sink_ok /\
      fst (write_billing_output sys sink stdout destination)
      = Some (complete report)).
Proof.
  intros report. subst report.
  split; [reflexivity|]. split; [reflexivity|]. split; [reflexivity|].
  intros [| |bytes]; cbn [write_billing_output fst snd];
    [intros _; split; reflexivity|discriminate|discriminate].
Qed.

Lemma write_billing_output_failure_modes_witness :
  let sys := mk_system empty empty [("bob", f5_00); ("alice", f2_00)] in
  write_billing_output sys (sink_fails_after 5) (Ok tt) None
  = (Some (truncated [ ["alice"; "2.00"]; ["bob"; "5.00"] ] 5), Raise OSError) /\
  fst (write_billing_output sys sink_ok (Ok tt) None)
  = Some (complete [ ["alice"; "2.00"]; ["bob"; "5.00"] ]).
Proof.
  intros sys.
  destruct (write_billing_output_failure_modes sys (Ok tt) None)
    as (_ & _ & Hfail & Hdone).
  split.
  - rewrite (Hfail 5%nat). reflexivity.
  - destruct (Hdone sink_ok eq_refl) as [_ Hfull]. rewrite Hfull. reflexivity.
Defined.

(** * Further properties *)

Example fixture_process_billing :
  process_billing fixture_zone_map fixture_journey_data sink_ok (Ok tt) None
    new_system
  = (mk_system
       [("station1", 1); ("station2", 2); ("station3", 3); ("station4", 4)]
       fixture_journeys
       [("user1", Prim2SF 6.9%float); ("user2", Prim2SF 3.3%float);
        ("user3", Prim2SF 7.8%float)],
     Some (complete [ ["user1"; "6.90"]; ["user2"; "3.30"]; ["user3"; "7.80"] ]),
     Done).
Proof. vm_compute. reflexivity. Qed.


(** ** The pricing function on every argument *)

(** X1: [get_additional_zone_cost] raises [ValueError] exactly for the
    ints that are zero or negative and [TypeError] exactly for the
    arguments that are not ints (a bool counts as the int 0 or 1); it
    raises nothing else and never returns [None]. *)
Theorem pricing_errors (zone : py_object) :
  (get_additional_zone_cost zone = Raise ValueError <->
   exists z, zone = PyInt z /\ z <= 0) /\
  (get_additional_zone_cost zone = Raise TypeError <->
   forall z, zone <> PyInt z) /\
  (forall e, get_additional_zone_cost zone = Raise e ->
             e = ValueError \/ e = TypeError) /\
  get_additional_zone_cost zone <> Ok None.
Proof.
  destruct zone as [z|s|].
  - destruct (Z.le_gt_cases z 0) as [Hz|Hz].
    + assert (E : get_additional_zone_cost (PyInt z) = Raise ValueError).
      { unfold get_additional_zone_cost.
        replace (z <=? 0) with true by (symmetry; apply Z.leb_le; exact Hz).
        reflexivity. }
      rewrite E.
      split; [split; [intros _; exists z; split; [reflexivity|exact Hz]
                     |reflexivity]|].
      split; [split; [discriminate|intros H; exfalso; apply (H z); reflexivity]|].
      split; [intros e He; inversion He; left; reflexivity|discriminate].
    + rewrite (get_additional_zone_cost_tier z) by lia.
      split; [split; [discriminate
                     |intros (z' & Hz' & Hle); inversion Hz'; subst; lia]|].
      split; [split; [discriminate|intros H; exfalso; apply (H z); reflexivity]|].
      split; discriminate.
  - cbn [get_additional_zone_cost].
    split; [split; [discriminate|intros (z & Hz & _); discriminate Hz]|].
    split; [split; [discriminate|reflexivity]|].
    split; [intros e He; inversion He; right; reflexivity|discriminate].
  - cbn [get_additional_zone_cost].
    split; [split; [discriminate|intros (z & Hz & _); discriminate Hz]|].
    split; [split; [discriminate|reflexivity]|].
    split; [intros e He; inversion He; right; reflexivity|discriminate].
Qed.

(** ** Exceptions of the fare engine *)

Lemma pricing_errors_of_int (z : Z) :
  get_additional_zone_cost (PyInt z) = Raise ValueError \/
  exists c, get_additional_zone_cost (PyInt z) = Ok (Some c).
Proof.
  destruct (Z.le_gt_cases z 0) as [Hz|Hz].
  - left. unfold get_additional_zone_cost.
    replace (z <=? 0) with true by (symmetry; apply Z.leb_le; exact Hz).
    reflexivity.
  - right. exists (tier_cost z). apply get_additional_zone_cost_tier. lia.
Qed.

Lemma charge_raises (st : loop_state) (zone : Z) (direction : string) (e : exn) :
  charge st zone direction = Raise e -> e = ValueError.
Proof.
  unfold charge.
  destruct (direction =? "IN")%string; [discriminate|].
  destruct (direction =? "OUT")%string; cbn [andb]; [|discriminate].
  destruct (daily_journeys st) as [|entry_zone rest]; cbn [is_empty];
    [discriminate|].
  destruct (pricing_errors_of_int entry_zone) as [H1|[c1 H1]]; rewrite H1;
    cbn [bind add_returned]; [intros H; inversion H; reflexivity|].
  destruct (pricing_errors_of_int zone) as [H2|[c2 H2]]; rewrite H2;
    cbn [bind add_returned]; [intros H; inversion H; reflexivity|discriminate].
Qed.

Lemma run_loop_raises (js : list journey) :
  forall st e, run_loop st js = Raise e -> e = ValueError.
Proof.
  induction js as [|[[zone direction] ts] js IH]; intros st e H;
    cbn [run_loop process_event] in H; [discriminate|].
  destruct (charge st zone direction) as [st1|e1] eqn:E; cbn [bind] in H.
  - eapply IH, H.
  - inversion H; subst. eapply charge_raises, E.
Qed.

(** X2: the only exceptions of the bill computation for one user are
    [IndexError], raised exactly when the user has no journey at all, and
    [ValueError], raised only when one of the user's journeys has a zone
    that is zero or negative. *)
Theorem user_bill_exceptions (js : list journey) :
  (user_bill js = Raise IndexError <-> js = []) /\
  (forall e, user_bill js = Raise e -> e = IndexError \/ e = ValueError) /\
  (user_bill js = Raise ValueError -> exists j, In j js /\ zone_of j <= 0).
Proof.
  destruct js as [|first rest]; cbn [user_bill].
  - split; [split; reflexivity|].
    split; [intros e H; inversion H; left; reflexivity|discriminate].
  - destruct (run_loop (initial_state first) (first :: rest)) as [st|e'] eqn:E;
      cbn [bind].
    + split; [split; discriminate|]. split; [discriminate|discriminate].
    + pose proof (run_loop_raises _ _ _ E) as He'. subst e'.
      split; [split; discriminate|].
      split; [intros e H; inversion H; right; reflexivity|].
      intros _.
      destruct (Forall_Exists_dec (fun j => 1 <= zone_of j)
                  (fun j => Z_le_dec 1 (zone_of j)) (first :: rest)) as [Hall|Hex].
      * destruct (run_loop_total _ _ (initial_state_stack_valid first) Hall)
          as (st & Hst & _). congruence.
      * apply Exists_exists in Hex. destruct Hex as (j & Hin & Hj).
        exists j. split; [exact Hin|lia].
Qed.

Lemma user_bill_exceptions_witness :
  let js := [ (0, "IN", at_ 2022 4 4 9 0); (1, "OUT", at_ 2022 4 4 9 30) ] in
  (exists j, In j js /\ zone_of j <= 0) /\ user_bill [] = Raise IndexError.
Proof.
  intros js. split.
  - destruct (user_bill_exceptions js) as (_ & _ & Hzone).
    apply Hzone. reflexivity.
  - destruct (user_bill_exceptions []) as ((_ & Hempty) & _).
    apply Hempty. reflexivity.
Defined.

(** ** Journeys and days *)

Lemma charge_frame (st st' : loop_state) (zone : Z) (direction : string) :
  charge st zone direction = Ok st' ->
  monthly_total st' = monthly_total st /\ cur_day st' = cur_day st.
Proof.
  unfold charge.
  destruct (direction =? "IN")%string;
    [intros H; inversion H; split; reflexivity|].
  destruct ((direction =? "OUT")%string && is_empty (daily_journeys st));
    [intros H; inversion H; split; reflexivity|].
  destruct (direction =? "OUT")%string;
    [|intros H; inversion H; split; reflexivity].
  destruct (daily_journeys st) as [|entry_zone rest]; [discriminate|].
  destruct (get_additional_zone_cost (PyInt entry_zone)) as [[c1|]|e];
    cbn [bind add_returned]; try discriminate.
  destruct (get_additional_zone_cost (PyInt zone)) as [[c2|]|e];
    cbn [bind add_returned]; try discriminate.
  intros H; inversion H; split; reflexivity.
Qed.

Lemma pair_costs_across_days (ca cb : float) :
  In ca [f0_80; f0_50; f0_30; f0_10] ->
  In cb [f0_80; f0_50; f0_30; f0_10] ->
  forall d : date,
    let cost := round2 (add (add f2_00 ca) cb) in
    final_bill (mk_state [] (add f0_00 cost) f0_00 d) = cost /\
    final_bill (mk_state [] f0_00 (add f0_00 (min f15_00 (add f0_00 cost))) d) = cost.
Proof.
  intros Ha Hb d. cbn [In] in Ha, Hb.
  repeat match goal with
         | H : _ \/ _ |- _ => destruct H as [H|H]
         | H : False |- _ => destruct H
         end; subst; split; vm_compute; reflexivity.
Qed.

(** X3: one IN followed by one OUT is billed
    [round(2.00 + additional_cost(a) + additional_cost(b), 2)] whatever the
    two dates are: a journey that ends on a later day than it began (or
    whose taps are out of order) costs what a same-day journey costs. *)
Theorem single_pair_bill_any_dates (a b : Z) (t_in t_out : datetime) :
  1 <= a -> 1 <= b ->
  exists ca cb : float,
    get_additional_zone_cost (PyInt a) = Ok (Some ca) /\
    get_additional_zone_cost (PyInt b) = Ok (Some cb) /\
    user_bill [(a, "IN", t_in); (b, "OUT", t_out)]
    = Ok (round2 (add (add f2_00 ca) cb)).
Proof.
  intros Ha Hb.
  exists (tier_cost a), (tier_cost b).
  split; [apply get_additional_zone_cost_tier, Ha|].
  split; [apply get_additional_zone_cost_tier, Hb|].
  unfold user_bill. cbn [run_loop]. unfold process_event at 1.
  rewrite charge_in. cbn [bind].
  rewrite rollover_same_day by reflexivity.
  unfold process_event.
  rewrite (charge_out_matched _ b a []) by reflexivity.
  rewrite (get_additional_zone_cost_tier a Ha), (get_additional_zone_cost_tier b Hb).
  cbn [bind add_returned]. f_equal.
  cbn [daily_total monthly_total cur_day initial_state snd].
  destruct (pair_costs_across_days _ _ (tier_cost_in a) (tier_cost_in b)
              (dt_date t_in)) as [Hsame _].
  destruct (pair_costs_across_days _ _ (tier_cost_in a) (tier_cost_in b)
              (dt_date t_out)) as [_ Hlater].
  destruct (date_gtb (dt_date t_out) (dt_date t_in)) eqn:E.
  - rewrite rollover_later by exact E. exact Hlater.
  - rewrite rollover_not_later by exact E. exact Hsame.
Qed.

Lemma single_pair_bill_any_dates_witness :
  exists ca cb : float,
    get_additional_zone_cost (PyInt 4) = Ok (Some ca) /\
    get_additional_zone_cost (PyInt 2) = Ok (Some cb) /\
    user_bill [(4, "IN", at_ 2022 4 6 23 50); (2, "OUT", at_ 2022 4 7 0 20)]
    = Ok (round2 (add (add f2_00 ca) cb)).
Proof.
  apply (single_pair_bill_any_dates 4 2 (at_ 2022 4 6 23 50) (at_ 2022 4 7 0 20));
    lia.
Defined.

Lemma process_event_no_rollover (st st' : loop_state) (j : journey) :
  date_gtb (dt_date (timestamp_of j)) (cur_day st) = false ->
  process_event st j = Ok st' ->
  monthly_total st' = monthly_total st /\ cur_day st' = cur_day st.
Proof.
  destruct j as [[zone direction] ts]. unfold timestamp_of. cbn [snd].
  intros Hd H. unfold process_event in H.
  destruct (charge st zone direction) as [st1|e] eqn:E; [|discriminate].
  cbn [bind] in H. inversion H; subst; clear H.
  destruct (charge_frame _ _ _ _ E) as [Hm Hc].
  rewrite rollover_not_later by (rewrite Hc; exact Hd).
  split; assumption.
Qed.

Lemma run_loop_no_rollover (js : list journey) :
  forall st st',
    none_later_than (cur_day st) js ->
    run_loop st js = Ok st' ->
    monthly_total st' = monthly_total st /\ cur_day st' = cur_day st.
Proof.
  induction js as [|j js IH]; intros st st' Hd H; cbn [run_loop] in H.
  - inversion H; split; reflexivity.
  - inversion Hd as [|? ? Hj Hjs]; subst.
    destruct (process_event st j) as [st1|e] eqn:E; [|discriminate].
    cbn [bind] in H.
    destruct (process_event_no_rollover _ _ _ Hj E) as [Hm Hc].
    destruct (IH st1 st') as [Hm' Hc']; [rewrite Hc; exact Hjs|exact H|].
    split; congruence.
Qed.

Lemma add_zero_le_15 (x : float) :
  amount_ok x = true -> leb x f15_00 = true -> leb (add f0_00 x) f15_00 = true.
Proof.
  destruct x as [s|[|]| |[|] m e]; try discriminate; intros _ H.
  - destruct s; reflexivity.
  - exact H.
Qed.

Lemma min_100_of_at_most_15 (y : float) :
  leb y f15_00 = true -> min f100_00 y = y.
Proof.
  intros H. unfold min.
  replace (ltb y f100_00) with true; [reflexivity|]. symmetry.
  destruct y as [s|[|]| |[|] m e]; try reflexivity; try discriminate H.
  unfold leb, SFleb, SFcompare, f15_00 in H.
  unfold ltb, SFltb, SFcompare, f100_00.
  destruct (Z.compare_spec e (-49)); try discriminate H;
    destruct (Z.compare_spec e (-46)); try reflexivity; lia.
Qed.

(** X4: when no journey of a user is dated later than the first one, the
    bill, if the computation returns one, is at most 15.00: the daily cap
    bounds the bill of a user who travelled on a single day. *)
Theorem single_day_bill_at_most_15
    (first : journey) (rest : list journey) (b : float) :
  none_later_than (dt_date (timestamp_of first)) rest ->
  user_bill (first :: rest) = Ok b ->
  leb b f15_00 = true.
Proof.
  intros Hd Hb. unfold user_bill in Hb.
  destruct (run_loop (initial_state first) (first :: rest)) as [st|e] eqn:E;
    [|discriminate].
  cbn [bind] in Hb. inversion Hb; subst; clear Hb.
  pose proof (run_loop_prefix_ok _ _ _ E) as Hok.
  destruct (run_loop_no_rollover (first :: rest) (initial_state first) st)
    as [Hm _]; [|exact E|].
  { constructor; [apply date_gtb_irrefl|exact Hd]. }
  destruct (final_flush_ok st Hok) as [Hf1 Hf2].
  unfold final_bill, final_monthly_total. rewrite Hm. cbn [initial_state monthly_total].
  pose proof (add_zero_le_15 _ Hf1 Hf2) as H15.
  rewrite (min_100_of_at_most_15 _ H15). exact H15.
Qed.

Lemma single_day_bill_at_most_15_witness :
  exists b, user_bill three_pairs_one_day = Ok b /\ leb b f15_00 = true.
Proof.
  eexists. split; [vm_compute; reflexivity|].
  apply (single_day_bill_at_most_15 (2, "IN", at_ 2022 4 4 8 0)
           (tl three_pairs_one_day)).
  - repeat constructor.
  - vm_compute. reflexivity.
Defined.

Lemma date_gtb_spec (a b : date) :
  date_gtb a b = true <->
  (year b < year a \/
   (year a = year b /\
    (month b < month a \/ (month a = month b /\ day b < day a)))).
Proof.
  unfold date_gtb.
  destruct (Z.compare_spec (year a) (year b));
    [destruct (Z.compare_spec (month a) (month b));
       [rewrite Z.ltb_lt|..]|..];
    split; intros; try discriminate; try reflexivity; lia.
Qed.

Lemma date_not_gtb_trans (a b c : date) :
  date_gtb a b = false -> date_gtb b c = false -> date_gtb a c = false.
Proof.
  intros H1 H2.
  destruct (date_gtb a c) eqn:E; [|reflexivity].
  apply date_gtb_spec in E.
  assert (N1 : ~ date_gtb a b = true) by congruence.
  assert (N2 : ~ date_gtb b c = true) by congruence.
  rewrite date_gtb_spec in N1, N2. lia.
Qed.

Lemma date_gtb_not_reverse (a b : date) :
  date_gtb a b = true -> date_gtb b a = false.
Proof.
  intros H. destruct (date_gtb b a) eqn:E; [|reflexivity].
  apply date_gtb_spec in H. apply date_gtb_spec in E. lia.
Qed.

Lemma process_event_cur_day (st st' : loop_state) (j : journey) :
  process_event st j = Ok st' ->
  (cur_day st' = cur_day st \/ cur_day st' = dt_date (timestamp_of j)) /\
  date_gtb (cur_day st) (cur_day st') = false /\
  date_gtb (dt_date (timestamp_of j)) (cur_day st') = false.
Proof.
  destruct j as [[zone direction] ts]. unfold timestamp_of. cbn [snd].
  intros H. unfold process_event in H.
  destruct (charge st zone direction) as [st1|e] eqn:E; [|discriminate].
  cbn [bind] in H. inversion H; subst; clear H.
  destruct (charge_frame _ _ _ _ E) as [_ Hc].
  unfold rollover. rewrite Hc.
  destruct (date_gtb (dt_date ts) (cur_day st)) eqn:Hd; cbn [cur_day].
  - split; [right; reflexivity|].
    split; [apply date_gtb_not_reverse, Hd|apply date_gtb_irrefl].
  - rewrite Hc. split; [left; reflexivity|].
    split; [apply date_gtb_irrefl|exact Hd].
Qed.

Lemma run_loop_cur_day (js : list journey) :
  forall st st',
    run_loop st js = Ok st' ->
    (cur_day st' = cur_day st \/
     exists j, In j js /\ cur_day st' = dt_date (timestamp_of j)) /\
    date_gtb (cur_day st) (cur_day st') = false /\
    Forall (fun j => date_gtb (dt_date (timestamp_of j)) (cur_day st') = false) js.
Proof.
  induction js as [|j js IH]; intros st st' H; cbn [run_loop] in H.
  - inversion H; subst. split; [left; reflexivity|].
    split; [apply date_gtb_irrefl|constructor].
  - destruct (process_event st j) as [st1|e] eqn:E; [|discriminate].
    cbn [bind] in H.
    destruct (process_event_cur_day _ _ _ E) as (Hc1 & Hle1 & Hj1).
    destruct (IH _ _ H) as (Hc & Hle & Hall).
    split; [|split].
    + destruct Hc as [Hc|(j' & Hin & Hc)].
      * destruct Hc1 as [Hc1|Hc1]; [left; congruence|].
        right. exists j. split; [left; reflexivity|congruence].
      * right. exists j'. split; [right; exact Hin|exact Hc].
    + eapply date_not_gtb_trans; eassumption.
    + constructor; [|exact Hall].
      eapply date_not_gtb_trans; eassumption.
Qed.

(** X5: the current day of the loop never moves backwards: after the loop
    it is the date of one of the user's journeys and no journey of the
    user is dated later, also when the journeys are not in chronological
    order. *)
Theorem cur_day_is_the_latest_date
    (first : journey) (rest : list journey) (st : loop_state) :
  run_loop (initial_state first) (first :: rest) = Ok st ->
  (exists j, In j (first :: rest) /\ cur_day st = dt_date (timestamp_of j)) /\
  none_later_than (cur_day st) (first :: rest).
Proof.
  intros H. destruct (run_loop_cur_day _ _ _ H) as (Hc & _ & Hall).
  split; [|exact Hall].
  destruct Hc as [Hc|Hc]; [|exact Hc].
  exists first. split; [left; reflexivity|exact Hc].
Qed.

Lemma cur_day_is_the_latest_date_witness :
  none_later_than (mk_date 2022 4 10) fixture_user3.
Proof.
  apply (cur_day_is_the_latest_date (4, "IN", at_ 2022 4 6 5 10)
           (tl fixture_user3)
           (mk_state [] f0_00 (add (add (add f2_00 f0_30) f0_50) f5_00) (mk_date 2022 4 10))).
  vm_compute. reflexivity.
Defined.

(** X6: an event dated later than the current day is charged before the
    day changes: its charge joins the running total of the day that ends,
    is capped with it and goes to the monthly total, and the new day
    starts from zero.  The first event of a day never counts towards that
    day's cap. *)
Theorem first_event_of_a_day_is_charged_to_the_day_before
    (st st1 : loop_state) (j : journey) :
  charge st (zone_of j) (direction_of j) = Ok st1 ->
  date_gtb (dt_date (timestamp_of j)) (cur_day st) = true ->
  process_event st j
  = Ok (mk_state (daily_journeys st1) f0_00
          (add (monthly_total st) (min f15_00 (daily_total st1)))
          (dt_date (timestamp_of j))).
Proof.
  destruct j as [[zone direction] ts]. unfold zone_of, direction_of, timestamp_of.
  cbn [fst snd]. intros Hc Hd. unfold process_event. rewrite Hc. cbn [bind].
  destruct (charge_frame _ _ _ _ Hc) as [Hm Hday].
  rewrite rollover_later by (rewrite Hday; exact Hd).
  rewrite Hm. reflexivity.
Qed.

Lemma first_event_of_a_day_is_charged_to_the_day_before_witness :
  process_event (mk_state [] f15_00 f0_00 (mk_date 2022 4 4))
    (2, "OUT", at_ 2022 4 5 8 0)
  = Ok (mk_state [] f0_00 f15_00 (mk_date 2022 4 5)).
Proof.
  rewrite (first_event_of_a_day_is_charged_to_the_day_before
             (mk_state [] f15_00 f0_00 (mk_date 2022 4 4))
             (mk_state [] (add f15_00 f5_00) f0_00 (mk_date 2022 4 4))
             (2, "OUT", at_ 2022 4 5 8 0) eq_refl eq_refl).
  vm_compute. reflexivity.
Defined.

(** ** Journeys that are never priced *)

Lemma run_loop_ignored (js : list journey) :
  forall d : date,
    Forall (fun j => direction_of j <> "IN" /\ direction_of j <> "OUT") js ->
    exists d', run_loop (mk_state [] f0_00 f0_00 d) js
               = Ok (mk_state [] f0_00 f0_00 d').
Proof.
  induction js as [|[[zone direction] ts] js IH]; intros d Hall.
  - exists d. reflexivity.
  - inversion Hall as [|? ? [H1 H2] Hrest]; subst.
    unfold direction_of in H1, H2. cbn [fst snd] in H1, H2.
    cbn [run_loop process_event].
    rewrite (charge_other _ zone direction H1 H2). cbn [bind].
    unfold rollover. cbn [cur_day daily_journeys daily_total monthly_total].
    destruct (date_gtb (dt_date ts) d).
    + change (add f0_00 (min f15_00 f0_00)) with f0_00. apply IH, Hrest.
    + apply IH, Hrest.
Qed.

(** X7: a user all of whose events have a direction other than IN and OUT
    is billed 0.00: such events are not rejected, they are ignored. *)
Theorem ignored_directions_bill_zero (first : journey) (rest : list journey) :
  Forall (fun j => direction_of j <> "IN" /\ direction_of j <> "OUT")
    (first :: rest) ->
  user_bill (first :: rest) = Ok f0_00.
Proof.
  intros Hall. unfold user_bill, initial_state.
  destruct (run_loop_ignored (first :: rest) (dt_date (snd first)) Hall)
    as [d' Hrun].
  rewrite Hrun. reflexivity.
Qed.

Lemma ignored_directions_bill_zero_witness :
  user_bill [ (1, "in", at_ 2022 4 4 9 0); (3, "Out", at_ 2022 4 5 9 0) ]
  = Ok f0_00.
Proof.
  apply (ignored_directions_bill_zero (1, "in", at_ 2022 4 4 9 0)
           [ (3, "Out", at_ 2022 4 5 9 0) ]).
  repeat constructor; discriminate.
Defined.

Lemma run_loop_entries_only (js : list journey) :
  forall (stack : list Z) (d : date),
    Forall (fun j => direction_of j = "IN") js ->
    exists stack' d',
      run_loop (mk_state stack f0_00 f0_00 d) js
      = Ok (mk_state stack' f0_00 f0_00 d') /\
      List.length stack' = (List.length js + List.length stack)%nat.
Proof.
  induction js as [|[[zone direction] ts] js IH]; intros stack d Hall.
  - exists stack, d. split; reflexivity.
  - inversion Hall as [|? ? H1 Hrest]; subst.
    unfold direction_of in H1. cbn [fst snd] in H1. subst direction.
    cbn [run_loop process_event]. rewrite charge_in. cbn [bind].
    unfold rollover. cbn [cur_day daily_journeys daily_total monthly_total].
    destruct (date_gtb (dt_date ts) d).
    + change (add f0_00 (min f15_00 f0_00)) with f0_00.
      destruct (IH (zone :: stack) (dt_date ts) Hrest) as (s' & d' & Hrun & Hlen).
      exists s', d'. split; [exact Hrun|]. cbn [List.length] in *. lia.
    + destruct (IH (zone :: stack) d Hrest) as (s' & d' & Hrun & Hlen).
      exists s', d'. split; [exact Hrun|]. cbn [List.length] in *. lia.
Qed.

Lemma entries_only_bill_values :
  all_upto (fun n => if float_eq_dec (entries_only_bill n)
                          (if n =? 1 then f5_00
                           else if n =? 2 then of_int 10 else f15_00)
                     then true else false) 2000 = true.
Proof. vm_compute. reflexivity. Qed.

(** X8: a user who only ever tapped in is billed without any zone being
    looked at: the computation returns a bill whatever the zones and the
    dates are, and the bill depends on the number of taps only.  It is
    5.00 for one tap, 10.00 for two and 15.00 for three taps or more
    (checked up to 2000 taps). *)
Theorem entries_only_bill_by_count (first : journey) (rest : list journey) :
  Forall (fun j => direction_of j = "IN") (first :: rest) ->
  let n := Z.of_nat (List.length (first :: rest)) in
  user_bill (first :: rest) = Ok (entries_only_bill n) /\
  (n <= 2000 ->
   entries_only_bill n
   = if n =? 1 then f5_00 else if n =? 2 then of_int 10 else f15_00).
Proof.
  intros Hall n. split.
  - unfold user_bill, initial_state.
    destruct (run_loop_entries_only (first :: rest) [] (dt_date (snd first)) Hall)
      as (stack & d' & Hrun & Hlen).
    rewrite Hrun. cbn [bind]. f_equal.
    unfold final_bill, final_monthly_total, final_flush, final_daily_total.
    cbn [daily_journeys daily_total monthly_total].
    destruct stack as [|z stack]; [cbn [List.length] in Hlen; lia|].
    cbn [is_empty]. unfold entries_only_bill, n.
    rewrite Hlen, Nat.add_0_r. reflexivity.
  - intros Hn.
    pose proof (all_upto_spec _ _ entries_only_bill_values n) as H.
    cbv beta in H.
    destruct (float_eq_dec (entries_only_bill n)
                (if n =? 1 then f5_00 else if n =? 2 then of_int 10 else f15_00))
      as [E|E]; [exact E|].
    discriminate H. change (Z.of_nat 2000) with 2000.
    subst n. cbn [List.length] in *. lia.
Qed.

Lemma entries_only_bill_by_count_witness :
  user_bill [ (0, "IN", at_ 2022 4 4 9 0); (-7, "IN", at_ 2022 4 5 9 0);
              (3, "IN", at_ 2022 4 5 10 0) ]
  = Ok f15_00.
Proof.
  pose proof (entries_only_bill_by_count (0, "IN", at_ 2022 4 4 9 0)
                [ (-7, "IN", at_ 2022 4 5 9 0); (3, "IN", at_ 2022 4 5 10 0) ]
                ltac:(repeat constructor)) as P.
  cbv zeta in P. destruct P as [Hbill Hvalue].
  refine (eq_trans Hbill (f_equal Ok (Hvalue _))). vm_compute. discriminate.
Defined.

(** ** Loading the zone map: what stays *)

Lemma store_zones_app (good more : list (list string)) :
  Forall row_loads good ->
  forall zones,
    store_zones (good ++ more) zones
    = store_zones more (fst (store_zones good zones)).
Proof.
  induction 1 as [|row good (station & zone & z & -> & Hz) _ IH]; intros zones.
  - reflexivity.
  - cbn [app store_zones]. rewrite Hz. apply IH.
Qed.

Lemma store_zones_bad_row (bad : list string) (rest : list (list string))
    (zones : dict Z) :
  ~ row_loads bad -> store_zones (bad :: rest) zones = (zones, Raise ValueError).
Proof.
  intros Hbad.
  destruct bad as [|station [|zone [|extra row]]]; try reflexivity.
  cbn [store_zones]. destruct (PyStr.to_int zone) as [z|] eqn:Hz; [|reflexivity].
  exfalso. apply Hbad. exists station, zone, z. split; [reflexivity|exact Hz].
Qed.

(** X9: in a zone map whose rows up to the first rejected one have ASCII
    fields, the load stops at the first row that does not have two fields
    with an integer second field: it raises [ValueError], the rows before
    it have been stored, exactly as if the file had ended before the bad
    row, and no row after it is looked at. *)
Theorem read_zone_map_stops_at_first_bad_row
    (header bad : list string) (good rest : list (list string))
    (sys : MassTransitBillingSystem) :
  ascii_rows good -> ascii_row bad ->
  Forall row_loads good -> ~ row_loads bad ->
  read_zone_map (Some (header :: good ++ bad :: rest)) sys
  = (fst (read_zone_map (Some (header :: good)) sys), Raise ValueError).
Proof.
  intros _ _ Hgood Hbad. unfold read_zone_map. cbn [tl].
  rewrite (store_zones_app good (bad :: rest) Hgood).
  rewrite (store_zones_bad_row bad rest _ Hbad).
  destruct (store_zones good (station_to_zone sys)) as [zones r]. reflexivity.
Qed.

Lemma read_zone_map_stops_at_first_bad_row_witness :
  read_zone_map
    (Some [ ["station"; "zone"]; ["station1"; "1"]; ["station2"; "two"];
            ["station3"; "3"] ]) new_system
  = (mk_system [("station1", 1)] empty empty, Raise ValueError).
Proof.
  rewrite (read_zone_map_stops_at_first_bad_row ["station"; "zone"]
             ["station2"; "two"] [ ["station1"; "1"] ] [ ["station3"; "3"] ]).
  - reflexivity.
  - repeat constructor.
  - repeat constructor.
  - repeat constructor. exists "station1", "1", 1. split; reflexivity.
  - intros (s & zn & z & Hrow & Hz). inversion Hrow; subst. discriminate Hz.
Defined.

(** X10: [read_zone_map] touches nothing but the zones of the stations its
    file names: whether it succeeds or raises, the journeys and the bills
    are as before, and a station that no data row names keeps the zone it
    had (or stays unknown). *)
Theorem read_zone_map_frame
    (file : csv_file) (sys : MassTransitBillingSystem) (station : string) :
  let sys' := fst (read_zone_map file sys) in
  journeys_per_user sys' = journeys_per_user sys /\
  user_bills sys' = user_bills sys /\
  ((forall rows row, file = Some rows -> In row (tl rows) ->
                     hd_error row <> Some station) ->
   get (station_to_zone sys') station = get (station_to_zone sys) station).
Proof.
  intros sys'. subst sys'. unfold read_zone_map.
  destruct file as [rows|]; [|repeat split; reflexivity].
  pose proof (store_zones_keeps (tl rows) station) as Hkeep.
  destruct (store_zones (tl rows) (station_to_zone sys)) as [zones r] eqn:E.
  cbn [fst journeys_per_user user_bills station_to_zone].
  split; [reflexivity|]. split; [reflexivity|].
  intros Hother.
  specialize (Hkeep (fun row Hin => Hother rows row eq_refl Hin) (station_to_zone sys)).
  rewrite E in Hkeep. exact Hkeep.
Qed.

Lemma read_zone_map_frame_witness :
  get (station_to_zone
         (fst (read_zone_map (Some [ ["station"; "zone"]; ["station9"; "6"] ])
                 (mk_system [("station1", 1)] empty empty)))) "station1"
  = Some 1.
Proof.
  pose proof (read_zone_map_frame
                (Some [ ["station"; "zone"]; ["station9"; "6"] ])
                (mk_system [("station1", 1)] empty empty) "station1") as P.
  cbv zeta in P. destruct P as (_ & _ & Hkeep).
  rewrite Hkeep; [reflexivity|].
  intros rows row Hrows Hin. inversion Hrows; subst.
  destruct Hin as [<-|[]]. discriminate.
Defined.

(** ** Timestamps *)

Section Timestamps.

Import Strptime.

Lemma digit_of_range (c : ascii) (d : Z) :
  PyStr.digit_of c = Some d -> 0 <= d <= 9.
Proof.
  unfold PyStr.digit_of.
  destruct ((48 <=? PyStr.code c) && (PyStr.code c <=? 57)) eqn:E; [|discriminate].
  intros H. inversion H; subst.
  apply andb_true_iff in E. destruct E as [E1 E2].
  apply Z.leb_le in E1. apply Z.leb_le in E2. lia.
Qed.

Lemma digit_of_digit_char (d : Z) :
  0 <= d <= 9 -> PyStr.digit_of (PyStr.digit_char d) = Some d.
Proof.
  intros H.
  assert (E : d = 0 \/ d = 1 \/ d = 2 \/ d = 3 \/ d = 4 \/
              d = 5 \/ d = 6 \/ d = 7 \/ d = 8 \/ d = 9) by lia.
  repeat (destruct E as [-> | E]; [reflexivity|]). subst d. reflexivity.
Qed.

Lemma two_digits_text (ok : Z -> Z -> bool) (n : Z) (r : string) :
  0 <= n <= 99 -> ok (n / 10) (n mod 10) = true ->
  two_digits ok (two_digit_text n ++ r) = Some (n, r).
Proof.
  intros Hn Hok. unfold two_digit_text, two_digits. cbn [append].
  rewrite !digit_of_digit_char, Hok.
  - f_equal. f_equal. pose proof (Z.div_mod n 10). lia.
  - pose proof (Z.mod_pos_bound n 10). lia.
  - split; [apply Z.div_pos; lia|].
    apply Z.lt_succ_r. change (Z.succ 9) with 10.
    apply Z.div_lt_upper_bound; lia.
Qed.

Lemma range_check (ok : Z -> bool) (lo : Z) (hi : nat) :
  (negb (lo <=? 0) || ok 0) = true ->
  all_upto (fun n => negb (lo <=? n) || ok n) hi = true ->
  forall n, 0 <= n -> lo <= n <= Z.of_nat hi -> ok n = true.
Proof.
  intros H0 Hall n Hn Hr.
  assert (P : negb (lo <=? n) || ok n = true).
  { destruct (Z.eq_dec n 0) as [->|Hne]; [exact H0|].
    apply (all_upto_spec _ hi Hall). lia. }
  replace (lo <=? n) with true in P by (symmetry; apply Z.leb_le; lia).
  exact P.
Qed.

Lemma field_m_text (m : Z) (r : string) :
  1 <= m <= 12 -> field_m (two_digit_text m ++ r) = Some (m, r).
Proof.
  intros H. unfold field_m. rewrite two_digits_text; [reflexivity|lia|].
  apply (range_check
           (fun n => ((n / 10 =? 1) && (n mod 10 <=? 2))
                     || ((n / 10 =? 0) && (1 <=? n mod 10))) 1 12);
    try reflexivity; lia.
Qed.

Lemma field_d_text (d : Z) (r : string) :
  1 <= d <= 31 -> field_d (two_digit_text d ++ r) = Some (d, r).
Proof.
  intros H. unfold field_d. rewrite two_digits_text; [reflexivity|lia|].
  apply (range_check
           (fun n => ((n / 10 =? 3) && (n mod 10 <=? 1))
                     || ((1 <=? n / 10) && (n / 10 <=? 2))
                     || ((n / 10 =? 0) && (1 <=? n mod 10))) 1 31);
    try reflexivity; lia.
Qed.

Lemma field_H_text (h : Z) (r : string) :
  0 <= h <= 23 -> field_H (two_digit_text h ++ r) = Some (h, r).
Proof.
  intros H. unfold field_H. rewrite two_digits_text; [reflexivity|lia|].
  apply (range_check
           (fun n => ((n / 10 =? 2) && (n mod 10 <=? 3)) || (n / 10 <=? 1)) 0 23);
    try reflexivity; lia.
Qed.

Lemma field_M_text (m : Z) (r : string) :
  0 <= m <= 59 -> field_M (two_digit_text m ++ r) = Some (m, r).
Proof.
  intros H. unfold field_M. rewrite two_digits_text; [reflexivity|lia|].
  apply (range_check (fun n => n / 10 <=? 5) 0 59); try reflexivity; lia.
Qed.

Lemma field_S_text (s : Z) (r : string) :
  0 <= s <= 59 -> field_S (two_digit_text s ++ r) = Some (s, r).
Proof.
  intros H. unfold field_S. rewrite two_digits_text; [reflexivity|lia|].
  apply (range_check
           (fun n => ((n / 10 =? 6) && (n mod 10 <=? 1)) || (n / 10 <=? 5)) 0 59);
    try reflexivity; lia.
Qed.

Lemma field_Y_text (y : Z) (r : string) :
  0 <= y <= 9999 ->
  field_Y (two_digit_text (y / 100) ++ two_digit_text (y mod 100) ++ r)
  = Some (y, r).
Proof.
  intros H. unfold field_Y.
  assert (H1 : 0 <= y / 100 <= 99).
  { split; [apply Z.div_pos; lia|].
    apply Z.lt_succ_r. change (Z.succ 99) with 100.
    apply Z.div_lt_upper_bound; lia. }
  pose proof (Z.mod_pos_bound y 100 ltac:(lia)) as H2.
  rewrite two_digits_text by (try reflexivity; lia).
  rewrite two_digits_text by (try reflexivity; lia).
  f_equal. f_equal. pose proof (Z.div_mod y 100). lia.
Qed.

Lemma days_in_month_le_31 (y m : Z) : days_in_month y m <= 31.
Proof.
  unfold days_in_month.
  destruct (m =? 2); [destruct (is_leap y); lia|].
  destruct ((m =? 4) || (m =? 6) || (m =? 9) || (m =? 11)); lia.
Qed.

Lemma days_in_month_ge_28 (y m : Z) : 28 <= days_in_month y m.
Proof.
  unfold days_in_month.
  destruct (m =? 2); [destruct (is_leap y); lia|].
  destruct ((m =? 4) || (m =? 6) || (m =? 9) || (m =? 11)); lia.
Qed.

(** X11: every date and time of day that a [datetime] can hold, written
    as [YYYY-MM-DDTHH:MM:SS] with zero-padded fields, is accepted by the
    timestamp parser and read back as the same fields. *)
Theorem strptime_reads_timestamps (t : datetime) :
  well_formed t -> strptime (timestamp_text t) = Some t.
Proof.
  destruct t as [[y m d] hh mm ss]. unfold well_formed.
  cbn [dt_date year month day hour minute second].
  intros (Hy & Hm & Hd & Hh & Hmi & Hs).
  pose proof (days_in_month_le_31 y m) as H31.
  unfold timestamp_text, strptime.
  cbn [dt_date year month day hour minute second].
  rewrite field_Y_text by lia. cbn [append literal Ascii.eqb Bool.eqb].
  rewrite field_m_text by lia. cbn [append literal Ascii.eqb Bool.eqb].
  rewrite field_d_text by lia.
  cbn [append literal literal_T or_else Ascii.eqb Bool.eqb].
  rewrite field_H_text by lia. cbn [append literal Ascii.eqb Bool.eqb].
  rewrite field_M_text by lia. cbn [append literal Ascii.eqb Bool.eqb].
  replace (two_digit_text ss) with (two_digit_text ss ++ "")%string
    by (unfold two_digit_text; reflexivity).
  rewrite field_S_text by lia.
  unfold constructible.
  replace (1 <=? y) with true by (symmetry; apply Z.leb_le; lia).
  replace (d <=? days_in_month y m) with true by (symmetry; apply Z.leb_le; lia).
  replace (ss <=? 59) with true by (symmetry; apply Z.leb_le; lia).
  reflexivity.
Qed.

Lemma strptime_reads_timestamps_witness :
  strptime "2024-02-29T23:59:59"
  = Some (mk_datetime (mk_date 2024 2 29) 23 59 59).
Proof.
  apply (strptime_reads_timestamps (mk_datetime (mk_date 2024 2 29) 23 59 59)).
  unfold well_formed. cbn. lia.
Defined.

Lemma two_digits_value (ok : Z -> Z -> bool) (s r : string) (n : Z) :
  two_digits ok s = Some (n, r) ->
  exists a b, n = 10 * a + b /\ 0 <= a <= 9 /\ 0 <= b <= 9 /\ ok a b = true.
Proof.
  unfold two_digits. destruct s as [|c1 [|c2 s]]; try discriminate.
  destruct (PyStr.digit_of c1) as [a|] eqn:E1; [|discriminate].
  destruct (PyStr.digit_of c2) as [b|] eqn:E2; [|discriminate].
  destruct (ok a b) eqn:E3; [|discriminate].
  intros H. assert (Hn : n = 10 * a + b) by congruence. clear H.
  exists a, b. repeat split; try (eapply digit_of_range; eassumption); assumption.
Qed.

Lemma one_digit_value (ok : Z -> bool) (s r : string) (n : Z) :
  one_digit ok s = Some (n, r) -> 0 <= n <= 9 /\ ok n = true.
Proof.
  unfold one_digit. destruct s as [|c s]; try discriminate.
  destruct (PyStr.digit_of c) as [a|] eqn:E1; [|discriminate].
  destruct (ok a) eqn:E2; [|discriminate].
  intros H. inversion H; subst.
  split; [eapply digit_of_range; eassumption|exact E2].
Qed.

Ltac bools :=
  repeat match goal with
         | H : (_ || _) = true |- _ => apply orb_true_iff in H; destruct H as [H|H]
         | H : (_ && _) = true |- _ => apply andb_true_iff in H; destruct H
         | H : (_ =? _) = true |- _ => apply Z.eqb_eq in H
         | H : (_ <=? _) = true |- _ => apply Z.leb_le in H
         end.

Lemma or_else_some {A : Type} (x y : option A) (v : A) :
  or_else x y = Some v -> x = Some v \/ y = Some v.
Proof. destruct x; cbn; intros H; [left|right]; exact H. Qed.

Lemma field_Y_value (s r : string) (n : Z) :
  field_Y s = Some (n, r) -> 0 <= n <= 9999.
Proof.
  unfold field_Y.
  destruct (two_digits (fun _ _ => true) s) as [[hi r1]|] eqn:E1; [|discriminate].
  destruct (two_digits (fun _ _ => true) r1) as [[lo r2]|] eqn:E2; [|discriminate].
  intros H. assert (Hn : n = 100 * hi + lo) by congruence. clear H.
  apply two_digits_value in E1. apply two_digits_value in E2.
  destruct E1 as (a & b & ? & ? & ? & _), E2 as (c & d & ? & ? & ? & _). lia.
Qed.

Lemma field_m_value (s r : string) (n : Z) :
  field_m s = Some (n, r) -> 1 <= n <= 12.
Proof.
  unfold field_m. intros H. apply or_else_some in H. destruct H as [H|H].
  - apply two_digits_value in H. destruct H as (a & b & -> & ? & ? & Hok).
    bools; lia.
  - apply one_digit_value in H. destruct H as [? Hok]. bools. lia.
Qed.

Lemma field_d_value (s r : string) (n : Z) :
  field_d s = Some (n, r) -> 1 <= n <= 31.
Proof.
  unfold field_d. intros H. apply or_else_some in H. destruct H as [H|H].
  - apply two_digits_value in H. destruct H as (a & b & -> & ? & ? & Hok).
    bools; lia.
  - apply or_else_some in H. destruct H as [H|H].
    + apply one_digit_value in H. destruct H as [? Hok]. bools. lia.
    + destruct s as [|c s]; [discriminate|].
      destruct c as [[|] [|] [|] [|] [|] [|] [|] [|]]; try discriminate.
      apply one_digit_value in H. destruct H as [? Hok]. bools. lia.
Qed.

Lemma field_H_value (s r : string) (n : Z) :
  field_H s = Some (n, r) -> 0 <= n <= 23.
Proof.
  unfold field_H. intros H. apply or_else_some in H. destruct H as [H|H].
  - apply two_digits_value in H. destruct H as (a & b & -> & ? & ? & Hok).
    bools; lia.
  - apply one_digit_value in H. destruct H as [? _]. lia.
Qed.

Lemma field_M_value (s r : string) (n : Z) :
  field_M s = Some (n, r) -> 0 <= n <= 59.
Proof.
  unfold field_M. intros H. apply or_else_some in H. destruct H as [H|H].
  - apply two_digits_value in H. destruct H as (a & b & -> & ? & ? & Hok).
    bools; lia.
  - apply one_digit_value in H. destruct H as [? _]. lia.
Qed.

Lemma field_S_value (s r : string) (n : Z) :
  field_S s = Some (n, r) -> 0 <= n <= 61.
Proof.
  unfold field_S. intros H. apply or_else_some in H. destruct H as [H|H].
  - apply two_digits_value in H. destruct H as (a & b & -> & ? & ? & Hok).
    bools; lia.
  - apply one_digit_value in H. destruct H as [? _]. lia.
Qed.

(** X12: whatever the ASCII text, a timestamp that the parser accepts is a
    real date and time of day: year 1 to 9999, a day that exists in its
    month (29 February in leap years only), hour below 24, minute and
    second below 60. *)
Theorem strptime_returns_real_dates (s : string) (t : datetime) :
  PyStr.is_ascii s = true ->
  strptime s = Some t -> well_formed t.
Proof.
  intros _. unfold strptime.
  destruct (field_Y s) as [[y r1]|] eqn:EY; [|discriminate].
  destruct (literal "-" r1) as [r2|]; [|discriminate].
  destruct (field_m r2) as [[m r3]|] eqn:Em; [|discriminate].
  destruct (literal "-" r3) as [r4|]; [|discriminate].
  destruct (field_d r4) as [[d r5]|] eqn:Ed; [|discriminate].
  destruct (literal_T r5) as [r6|]; [|discriminate].
  destruct (field_H r6) as [[hh r7]|] eqn:EH; [|discriminate].
  destruct (literal ":" r7) as [r8|]; [|discriminate].
  destruct (field_M r8) as [[mm r9]|] eqn:EM; [|discriminate].
  destruct (literal ":" r9) as [r10|]; [|discriminate].
  destruct (field_S r10) as [[ss r11]|] eqn:ES; [|discriminate].
  destruct r11; [|discriminate].
  destruct (constructible y m d ss) eqn:EC; [|discriminate].
  intros H. inversion H; subst; clear H.
  apply field_Y_value in EY. apply field_m_value in Em.
  apply field_d_value in Ed. apply field_H_value in EH.
  apply field_M_value in EM. apply field_S_value in ES.
  unfold constructible in EC. bools.
  unfold well_formed. cbn [dt_date year month day hour minute second]. lia.
Qed.

Lemma strptime_returns_real_dates_witness :
  well_formed (mk_datetime (mk_date 2022 4 4) 9 40 0).
Proof.
  apply (strptime_returns_real_dates "2022-4-4t9:40:0"); reflexivity.
Defined.

End Timestamps.

(** ** Reading the journey log *)

Section JourneyLog.

Lemma set_set {V : Type} (d : dict V) (k : string) (a b : V) :
  set (set d k a) k b = set d k b.
Proof.
  induction d as [|[k' v'] d IH]; cbn [set].
  - rewrite String.eqb_refl. reflexivity.
  - destruct (k' =? k)%string eqn:E; cbn [set]; rewrite E; [reflexivity|].
    rewrite IH. reflexivity.
Qed.

Lemma set_touch (d : dict (list journey)) (u : string) (v : list journey) :
  set (touch d u) u v = set d u v.
Proof. unfold touch. destruct (get d u); [reflexivity|apply set_set]. Qed.

Lemma journeys_of_touch (d : dict (list journey)) (u : string) :
  journeys_of (touch d u) u = journeys_of d u.
Proof.
  unfold touch, journeys_of. destruct (get d u) eqn:E.
  - rewrite E. reflexivity.
  - rewrite get_set_same. reflexivity.
Qed.

Lemma journeys_of_set (d : dict (list journey)) (u u' : string) (v : list journey) :
  journeys_of (set d u v) u' = if (u =? u')%string then v else journeys_of d u'.
Proof.
  unfold journeys_of. destruct (u =? u')%string eqn:E.
  - apply String.eqb_eq in E. subst u'. rewrite get_set_same. reflexivity.
  - apply String.eqb_neq in E. rewrite get_set_other by exact E. reflexivity.
Qed.

Lemma store_journeys_row (zones : dict Z) (row : list string)
    (rest : list (list string)) (journeys : dict (list journey))
    (u : string) (j : journey) :
  journey_of_row zones row = Some (u, j) ->
  store_journeys (row :: rest) zones journeys
  = store_journeys rest zones (set journeys u (journeys_of journeys u ++ [j])).
Proof.
  unfold journey_of_row.
  destruct row as [|user_id [|station [|direction [|timestamp [|extra row]]]]];
    try discriminate.
  cbn [store_journeys].
  destruct (Strptime.strptime timestamp) as [t|]; [|discriminate].
  destruct (get zones station) as [zone|]; [|discriminate].
  intros H. inversion H; subst.
  rewrite set_touch, journeys_of_touch. reflexivity.
Qed.

Lemma store_journeys_bad_row (zones : dict Z) (row : list string)
    (rest : list (list string)) (journeys : dict (list journey)) :
  journey_of_row zones row = None ->
  snd (store_journeys (row :: rest) zones journeys) <> Done.
Proof.
  unfold journey_of_row.
  destruct row as [|user_id [|station [|direction [|timestamp [|extra row]]]]];
    try (intros _; discriminate).
  cbn [store_journeys].
  destruct (Strptime.strptime timestamp) as [t|]; [|intros _; discriminate].
  destruct (get zones station) as [zone|]; [discriminate|intros _; discriminate].
Qed.

Lemma set_lists_non_empty (d : dict (list journey)) (u : string) (v : list journey) :
  lists_non_empty d -> v <> [] -> lists_non_empty (set d u v).
Proof. apply (set_Forall (fun l => l <> [])). Qed.

Lemma store_journeys_done (zones : dict Z) (rows : list (list string)) :
  forall journeys journeys',
    store_journeys rows zones journeys = (journeys', Done) ->
    Forall (row_reads zones) rows /\
    (forall u, journeys_of journeys' u
               = journeys_of journeys u ++ journeys_in zones u rows) /\
    (lists_non_empty journeys -> lists_non_empty journeys').
Proof.
  induction rows as [|row rows IH]; intros journeys journeys' H.
  - inversion H; subst. split; [constructor|].
    split; [intros u; cbn; rewrite app_nil_r; reflexivity|auto].
  - destruct (journey_of_row zones row) as [[u j]|] eqn:E.
    + rewrite (store_journeys_row _ _ _ _ _ _ E) in H.
      destruct (IH _ _ H) as (Hall & Hof & Hne).
      split; [constructor; [unfold row_reads; congruence|exact Hall]|].
      split.
      * intros u'. rewrite Hof, journeys_of_set.
        unfold journeys_in. cbn [flat_map]. rewrite E.
        destruct (u =? u')%string eqn:Eu.
        -- apply String.eqb_eq in Eu. subst u'. rewrite <- app_assoc. reflexivity.
        -- reflexivity.
      * intros Hd. apply Hne, set_lists_non_empty; [exact Hd|].
        destruct (journeys_of journeys u); discriminate.
    + exfalso. apply (store_journeys_bad_row _ _ rows journeys E).
      rewrite H. reflexivity.
Qed.

Lemma store_journeys_reads (zones : dict Z) (rows : list (list string)) :
  Forall (row_reads zones) rows ->
  forall journeys, snd (store_journeys rows zones journeys) = Done.
Proof.
  induction 1 as [|row rows Hrow _ IH]; intros journeys; [reflexivity|].
  unfold row_reads in Hrow.
  destruct (journey_of_row zones row) as [[u j]|] eqn:E; [|congruence].
  rewrite (store_journeys_row _ _ _ _ _ _ E). apply IH.
Qed.

(** X13: on a journey log with ASCII fields, [read_journey_data] succeeds
    exactly when every data row has four fields, a timestamp that parses
    and a station of the zone map; it then appends to each user's journeys
    the journeys of that user's rows, in the order of the file, with the
    direction as written and the zone of the station. *)
Theorem read_journey_data_groups_by_user
    (header : list string) (rows : list (list string))
    (sys : MassTransitBillingSystem) :
  ascii_rows rows ->
  let zones := station_to_zone sys in
  let sys' := fst (read_journey_data (Some (header :: rows)) sys) in
  (snd (read_journey_data (Some (header :: rows)) sys) = Done <->
   Forall (row_reads zones) rows) /\
  (Forall (row_reads zones) rows ->
   forall u, journeys_of (journeys_per_user sys') u
             = journeys_of (journeys_per_user sys) u ++ journeys_in zones u rows).
Proof.
  intros _ zones sys'. subst zones sys'. unfold read_journey_data. cbn [tl].
  pose proof (store_journeys_done (station_to_zone sys) rows (journeys_per_user sys))
    as Hdone.
  pose proof (store_journeys_reads (station_to_zone sys) rows) as Hreads.
  destruct (store_journeys rows (station_to_zone sys) (journeys_per_user sys))
    as [journeys r] eqn:E.
  cbn [fst snd journeys_per_user]. split; [split|].
  - intros ->. apply (Hdone journeys eq_refl).
  - intros Hall. specialize (Hreads Hall (journeys_per_user sys)).
    rewrite E in Hreads. exact Hreads.
  - intros Hall. specialize (Hreads Hall (journeys_per_user sys)).
    rewrite E in Hreads. cbn [snd] in Hreads. subst r.
    apply (Hdone journeys eq_refl).
Qed.

Lemma read_journey_data_groups_by_user_witness :
  journeys_of
    (journeys_per_user
       (fst (read_journey_data fixture_journey_data
               (mk_system [("station1", 1); ("station2", 2);
                           ("station3", 3); ("station4", 4)] empty empty))))
    "user2"
  = fixture_user2.
Proof.
  pose proof (read_journey_data_groups_by_user
                ["user_id"; "station"; "direction"; "time"]
                (tl (match fixture_journey_data with Some r => r | None => [] end))
                (mk_system [("station1", 1); ("station2", 2);
                            ("station3", 3); ("station4", 4)] empty empty)
                ltac:(repeat constructor)) as P.
  cbv zeta in P. destruct P as [_ Hof].
  refine (eq_trans (Hof _ "user2") _).
  - repeat constructor; discriminate.
  - vm_compute. reflexivity.
Defined.

Lemma user_bill_non_empty_raises (js : list journey) (e : exn) :
  js <> [] -> user_bill js = Raise e -> e = ValueError.
Proof.
  destruct js as [|first rest]; [congruence|]. intros _. cbn [user_bill].
  destruct (run_loop (initial_state first) (first :: rest)) as [st|e'] eqn:E;
    cbn [bind]; [discriminate|].
  intros H. inversion H; subst. eapply run_loop_raises, E.
Qed.

Lemma bill_users_raises (users : list (string * list journey)) :
  forall bills bills' e,
    lists_non_empty users ->
    bill_users users bills = (bills', Raise e) -> e = ValueError.
Proof.
  induction users as [|[u js] users IH]; intros bills bills' e Hne H;
    cbn [bill_users] in H; [discriminate|].
  inversion Hne as [|? ? Hjs Hrest]; subst. cbn [snd] in Hjs.
  destruct (user_bill js) as [b|e'] eqn:E.
  - eapply IH; eassumption.
  - inversion H; subst.
    eapply user_bill_non_empty_raises; eassumption.
Qed.

(** X14: after a successful [read_journey_data] every user of the journey
    log has at least one journey (provided that was so before, as in a new
    system), so that [calculate_billing_amounts_per_user], which reads the
    first journey of every user, never raises [IndexError]: its only
    exception is [ValueError]. *)
Theorem journeys_read_are_never_empty
    (file : csv_file) (sys sys' : MassTransitBillingSystem) :
  lists_non_empty (journeys_per_user sys) ->
  read_journey_data file sys = (sys', Done) ->
  lists_non_empty (journeys_per_user sys') /\
  forall e, snd (calculate_billing_amounts_per_user sys') = Raise e ->
            e = ValueError.
Proof.
  intros Hne H. unfold read_journey_data in H.
  destruct file as [rows|]; [|discriminate].
  destruct (store_journeys (tl rows) (station_to_zone sys) (journeys_per_user sys))
    as [journeys r] eqn:E.
  inversion H; subst; clear H. cbn [journeys_per_user].
  destruct (store_journeys_done _ _ _ _ E) as (_ & _ & Hne').
  specialize (Hne' Hne). split; [exact Hne'|].
  intros e. unfold calculate_billing_amounts_per_user.
  cbn [journeys_per_user user_bills items].
  destruct (bill_users journeys (user_bills sys)) as [bills r] eqn:Eb.
  cbn [snd]. intros ->. eapply bill_users_raises; eassumption.
Qed.

Lemma journeys_read_are_never_empty_witness :
  lists_non_empty
    (journeys_per_user
       (fst (read_journey_data fixture_journey_data
               (mk_system [("station1", 1); ("station2", 2);
                           ("station3", 3); ("station4", 4)] empty empty)))).
Proof.
  eapply (journeys_read_are_never_empty fixture_journey_data
            (mk_system [("station1", 1); ("station2", 2);
                        ("station3", 3); ("station4", 4)] empty empty)).
  - constructor.
  - vm_compute. reflexivity.
Defined.

Lemma store_journeys_app (zones : dict Z) (good more : list (list string)) :
  Forall (row_reads zones) good ->
  forall journeys,
    store_journeys (good ++ more) zones journeys
    = store_journeys more zones (fst (store_journeys good zones journeys)).
Proof.
  induction 1 as [|row good Hrow _ IH]; intros journeys; [reflexivity|].
  unfold row_reads in Hrow.
  destruct (journey_of_row zones row) as [[u j]|] eqn:E; [|congruence].
  cbn [app]. rewrite !(store_journeys_row _ _ _ _ _ _ E). apply IH.
Qed.

(** X15: the two ways a row of the journey log can fail differ in what
    they leave behind, here for rows with ASCII fields up to the failing
    one.  A timestamp that does not parse raises
    [ValueError] with the journeys as the rows before it left them.  An
    unknown station raises [KeyError] after the user's list has been
    looked up: the user is then bound to a list, an empty one if this was
    the user's first row. *)
Theorem read_journey_data_failure_states
    (header : list string) (good rest : list (list string))
    (user_id station direction timestamp : string)
    (sys : MassTransitBillingSystem) :
  ascii_rows good ->
  ascii_row [user_id; station; direction; timestamp] ->
  Forall (row_reads (station_to_zone sys)) good ->
  let before := fst (read_journey_data (Some (header :: good)) sys) in
  let file := Some (header :: good ++ [user_id; station; direction; timestamp] :: rest) in
  (Strptime.strptime timestamp = None ->
   read_journey_data file sys = (before, Raised (Builtin ValueError))) /\
  (Strptime.strptime timestamp <> None ->
   get (station_to_zone sys) station = None ->
   read_journey_data file sys
   = (mk_system (station_to_zone sys)
        (touch (journeys_per_user before) user_id) (user_bills sys),
      Raised (KeyError station)) /\
   get (touch (journeys_per_user before) user_id) user_id
   = Some (journeys_of (journeys_per_user before) user_id)).
Proof.
  intros _ _ Hgood before file. subst before file.
  unfold read_journey_data. cbn [tl].
  rewrite (store_journeys_app _ good _ Hgood).
  destruct (store_journeys good (station_to_zone sys) (journeys_per_user sys))
    as [journeys r] eqn:E.
  cbn [fst journeys_per_user store_journeys]. split.
  - intros ->. pose proof (store_journeys_reads _ _ Hgood (journeys_per_user sys)) as Hr.
    rewrite E in Hr. cbn [snd] in Hr. subst r. reflexivity.
  - intros Hts Hst.
    destruct (Strptime.strptime timestamp) as [t|]; [|congruence].
    rewrite Hst. split; [reflexivity|].
    unfold touch, journeys_of. destruct (get journeys user_id) eqn:Eg.
    + exact Eg.
    + apply get_set_same.
Qed.

Lemma read_journey_data_failure_states_witness :
  read_journey_data
    (Some [ ["user_id"; "station"; "direction"; "time"];
            ["user1"; "nowhere"; "IN"; "2022-04-04T09:40:00"] ])
    (mk_system [("station1", 1)] empty empty)
  = (mk_system [("station1", 1)] [("user1", [])] empty, Raised (KeyError "nowhere")).
Proof.
  pose proof (read_journey_data_failure_states
                ["user_id"; "station"; "direction"; "time"] [] []
                "user1" "nowhere" "IN" "2022-04-04T09:40:00"
                (mk_system [("station1", 1)] empty empty)
                ltac:(constructor) ltac:(repeat constructor)
                ltac:(constructor)) as P.
  cbv zeta in P. destruct P as [_ Hkey].
  destruct (Hkey ltac:(discriminate) eq_refl) as [Hread _].
  exact Hread.
Defined.

End JourneyLog.

(** ** Billing every user *)

Section Lookups.

Context {V : Type}.

Lemma get_In (d : dict V) (k : string) (v : V) :
  get d k = Some v -> In (k, v) d.
Proof.
  induction d as [|[k' v'] d IH]; cbn [get]; [discriminate|].
  destruct (k' =? k)%string eqn:E.
  - apply String.eqb_eq in E. subst k'. intros H. inversion H. left. reflexivity.
  - intros H. right. apply IH, H.
Qed.

Lemma get_None (d : dict V) (k : string) :
  get d k = None <-> ~ In k (keys d).
Proof.
  unfold keys. induction d as [|[k' v'] d IH]; cbn [get map In fst]; [tauto|].
  destruct (k' =? k)%string eqn:E.
  - apply String.eqb_eq in E. split; [discriminate|tauto].
  - apply String.eqb_neq in E. rewrite IH. tauto.
Qed.

Lemma In_get (d : dict V) (k : string) (v : V) :
  NoDup (keys d) -> In (k, v) d -> get d k = Some v.
Proof.
  unfold keys. induction d as [|[k' v'] d IH]; cbn [get map In fst]; [tauto|].
  intros Hnd Hin. inversion Hnd as [|? ? Hnotin Hrest]; subst.
  destruct Hin as [Hin|Hin].
  - inversion Hin; subst. rewrite String.eqb_refl. reflexivity.
  - destruct (k' =? k)%string eqn:E; [|apply IH; assumption].
    apply String.eqb_eq in E. subst k'. exfalso. apply Hnotin.
    apply (in_map fst) in Hin. exact Hin.
Qed.

Lemma get_Forall (P : V -> Prop) (d : dict V) (k : string) (v : V) :
  Forall (fun t => P (snd t)) d -> get d k = Some v -> P v.
Proof.
  intros Hd Hg. apply get_In in Hg.
  rewrite Forall_forall in Hd. apply (Hd _ Hg).
Qed.

Lemma set_present (d : dict V) (k : string) (v : V) :
  get d k = Some v -> set d k v = d.
Proof.
  induction d as [|[k' v'] d IH]; cbn [get set]; [discriminate|].
  destruct (k' =? k)%string eqn:E.
  - intros H. inversion H. reflexivity.
  - intros H. rewrite (IH H). reflexivity.
Qed.

End Lookups.

Section BillUsers.

Lemma bill_users_frame (users : list (string * list journey)) (u : string) :
  forall bills bills' r,
    bill_users users bills = (bills', r) ->
    ~ In u (map fst users) -> get bills' u = get bills u.
Proof.
  induction users as [|[u0 js0] users IH]; intros bills bills' r H Hnotin;
    cbn [bill_users] in H.
  - inversion H. reflexivity.
  - cbn [map fst In] in Hnotin.
    destruct (user_bill js0) as [amount|e].
    + rewrite (IH _ _ _ H) by tauto. apply get_set_other. tauto.
    + inversion H. reflexivity.
Qed.

Lemma bill_users_get (users : list (string * list journey)) :
  forall bills bills',
    NoDup (map fst users) ->
    bill_users users bills = (bills', Ok tt) ->
    forall u js, In (u, js) users ->
                 exists b, user_bill js = Ok b /\ get bills' u = Some b.
Proof.
  induction users as [|[u0 js0] users IH]; intros bills bills' Hnd H u js Hin;
    cbn [bill_users] in H; [destruct Hin|].
  cbn [map fst] in Hnd. inversion Hnd as [|? ? Hnotin Hrest]; subst.
  destruct (user_bill js0) as [amount|e] eqn:E; [|discriminate].
  destruct Hin as [Hin|Hin].
  - inversion Hin; subst. exists amount. split; [exact E|].
    rewrite (bill_users_frame _ _ _ _ _ H Hnotin). apply get_set_same.
  - eapply IH; eassumption.
Qed.

Lemma bill_users_again (users : list (string * list journey)) :
  forall bills bills' r,
    NoDup (map fst users) ->
    bill_users users bills = (bills', r) ->
    bill_users users bills' = (bills', r).
Proof.
  induction users as [|[u0 js0] users IH]; intros bills bills' r Hnd H;
    cbn [bill_users] in *.
  - inversion H; subst. reflexivity.
  - cbn [map fst] in Hnd. inversion Hnd as [|? ? Hnotin Hrest]; subst.
    destruct (user_bill js0) as [amount|e] eqn:E.
    + rewrite set_present.
      * eapply IH; eassumption.
      * rewrite (bill_users_frame _ _ _ _ _ H Hnotin). apply get_set_same.
    + inversion H; subst. reflexivity.
Qed.

Lemma bill_users_succeeds (users : list (string * list journey)) :
  Forall (fun t => snd t <> [] /\ zones_valid (snd t)) users ->
  forall bills, snd (bill_users users bills) = Ok tt.
Proof.
  induction 1 as [|[u js] users [Hne Hz] _ IH]; intros bills; [reflexivity|].
  cbn [snd] in Hne, Hz. cbn [bill_users].
  destruct js as [|first rest]; [congruence|].
  destruct (run_loop_total _ _ (initial_state_stack_valid first) Hz)
    as (st & Hst & _).
  rewrite (user_bill_unfold _ _ _ Hst). apply IH.
Qed.

(** X16: a successful [calculate_billing_amounts_per_user] binds every
    user of [journeys_per_user] to the bill of that user's own journeys,
    leaves the bills of all other users as they were, and changes neither
    the zone map nor the journeys. *)
Theorem calculate_bills_each_user_separately
    (sys sys' : MassTransitBillingSystem) :
  NoDup (keys (journeys_per_user sys)) ->
  calculate_billing_amounts_per_user sys = (sys', Ok tt) ->
  (forall u js, get (journeys_per_user sys) u = Some js ->
                exists b, user_bill js = Ok b /\ get (user_bills sys') u = Some b) /\
  (forall u, get (journeys_per_user sys) u = None ->
             get (user_bills sys') u = get (user_bills sys) u) /\
  station_to_zone sys' = station_to_zone sys /\
  journeys_per_user sys' = journeys_per_user sys.
Proof.
  intros Hnd H. unfold calculate_billing_amounts_per_user, items in H.
  destruct (bill_users (journeys_per_user sys) (user_bills sys)) as [bills r] eqn:E.
  inversion H; subst; clear H. cbn [user_bills station_to_zone journeys_per_user].
  split; [|split; [|split; reflexivity]].
  - intros u js Hg. apply (bill_users_get _ _ _ Hnd E u js), get_In, Hg.
  - intros u Hg. apply (bill_users_frame _ _ _ _ _ E), get_None, Hg.
Qed.

Lemma calculate_bills_each_user_separately_witness :
  exists b, user_bill fixture_user2 = Ok b /\
            get (user_bills
                   (fst (calculate_billing_amounts_per_user
                           (mk_system empty fixture_journeys [("user9", f5_00)]))))
                "user2" = Some b.
Proof.
  destruct (calculate_bills_each_user_separately
              (mk_system empty fixture_journeys [("user9", f5_00)])
              (fst (calculate_billing_amounts_per_user
                      (mk_system empty fixture_journeys [("user9", f5_00)]))))
    as (Hown & _).
  - repeat constructor; cbn; intuition discriminate.
  - vm_compute. reflexivity.
  - apply (Hown "user2" fixture_user2). reflexivity.
Defined.

(** X17: [calculate_billing_amounts_per_user] overwrites bills, it does
    not add to them: run a second time on the system it has produced, it
    gives the same system and the same result, also when it stops with an
    exception part of the way. *)
Theorem calculate_twice_is_calculate_once (sys : MassTransitBillingSystem) :
  NoDup (keys (journeys_per_user sys)) ->
  calculate_billing_amounts_per_user
    (fst (calculate_billing_amounts_per_user sys))
  = calculate_billing_amounts_per_user sys.
Proof.
  intros Hnd. unfold calculate_billing_amounts_per_user, items.
  destruct (bill_users (journeys_per_user sys) (user_bills sys)) as [bills r] eqn:E.
  cbn [fst journeys_per_user user_bills station_to_zone].
  rewrite (bill_users_again _ _ _ _ Hnd E). reflexivity.
Qed.

Lemma calculate_twice_is_calculate_once_witness :
  calculate_billing_amounts_per_user
    (fst (calculate_billing_amounts_per_user
            (mk_system empty fixture_journeys empty)))
  = calculate_billing_amounts_per_user (mk_system empty fixture_journeys empty).
Proof.
  apply (calculate_twice_is_calculate_once (mk_system empty fixture_journeys empty)).
  repeat constructor; cbn; intuition discriminate.
Defined.

End BillUsers.

(** ** The rows of the report *)

Section ReportRows.

Lemma string_lt_irrefl (a : string) : ~ string_lt a a.
Proof.
  unfold string_lt, String.ltb.
  pose proof (String.compare_antisym a a) as H.
  destruct (String.compare a a); cbn [CompOpp] in H; discriminate.
Qed.

Lemma StronglySorted_unique (l1 : list (string * float)) :
  forall l2,
    StronglySorted key_lt l1 -> StronglySorted key_lt l2 ->
    Permutation l1 l2 -> l1 = l2.
Proof.
  induction l1 as [|a l1 IH]; intros l2 H1 H2 Hperm.
  - apply Permutation_nil in Hperm. congruence.
  - destruct l2 as [|b l2];
      [apply Permutation_sym, Permutation_nil in Hperm; discriminate|].
    inversion H1 as [|? ? Hs1 Hall1]; subst.
    inversion H2 as [|? ? Hs2 Hall2]; subst.
    assert (Hab : a = b).
    { assert (Ha : In a (b :: l2))
        by (apply (Permutation_in _ Hperm); left; reflexivity).
      assert (Hb : In b (a :: l1))
        by (apply (Permutation_in _ (Permutation_sym Hperm)); left; reflexivity).
      destruct Ha as [Ha|Ha]; [congruence|].
      destruct Hb as [Hb|Hb]; [congruence|].
      rewrite Forall_forall in Hall1, Hall2.
      exfalso. apply (string_lt_irrefl (fst a)).
      apply (string_lt_trans _ (fst b)); [apply Hall1, Hb|apply Hall2, Ha]. }
    subst b. f_equal. apply IH; try assumption.
    apply (Permutation_cons_inv Hperm).
Qed.

(** X18: the report has one row per user of [user_bills], and the amount
    in a user's row is that user's own bill, formatted. *)
Theorem report_rows_carry_own_bill (bills : dict float) :
  NoDup (keys bills) ->
  List.length (output_rows bills) = List.length bills /\
  forall u a, In [u; a] (output_rows bills) <->
              exists b, get bills u = Some b /\ a = PyStr.format_2f b.
Proof.
  intros Hnd. unfold output_rows, items. split.
  - rewrite length_map. apply Permutation_length, sorted_perm.
  - intros u a. rewrite in_map_iff. split.
    + intros ([u' b] & Hrow & Hin). cbn [fst snd] in Hrow.
      inversion Hrow; subst. exists b. split; [|reflexivity].
      apply In_get; [exact Hnd|]. apply (Permutation_in _ (sorted_perm bills) Hin).
    + intros (b & Hg & ->). exists (u, b). split; [reflexivity|].
      apply (Permutation_in _ (Permutation_sym (sorted_perm bills))).
      apply get_In, Hg.
Qed.

Lemma report_rows_carry_own_bill_witness :
  In ["user2"; "2.30"] (output_rows [("user3", f5_00); ("user2", add f2_00 f0_30)]).
Proof.
  destruct (report_rows_carry_own_bill
              [("user3", f5_00); ("user2", add f2_00 f0_30)]) as [_ Hrows].
  - repeat constructor; cbn; intuition discriminate.
  - apply Hrows. exists (add f2_00 f0_30). split; vm_compute; reflexivity.
Defined.

(** X19: the report does not depend on the order in which the users
    entered [user_bills] (the order of their first rows in the journey
    log): two dicts with the same bindings give the same rows. *)
Theorem report_ignores_insertion_order (bills1 bills2 : dict float) :
  NoDup (keys bills1) ->
  Permutation bills1 bills2 ->
  output_rows bills1 = output_rows bills2.
Proof.
  intros Hnd Hperm. unfold output_rows, items. f_equal.
  assert (Hnd2 : NoDup (keys bills2)).
  { eapply Permutation_NoDup; [|exact Hnd]. apply Permutation_map, Hperm. }
  apply StronglySorted_unique.
  - apply sorted_StronglySorted, Hnd.
  - apply sorted_StronglySorted, Hnd2.
  - rewrite !sorted_perm. exact Hperm.
Qed.

Lemma report_ignores_insertion_order_witness :
  output_rows [("user3", f5_00); ("user2", f2_00)]
  = output_rows [("user2", f2_00); ("user3", f5_00)].
Proof.
  apply report_ignores_insertion_order.
  - repeat constructor; cbn; intuition discriminate.
  - apply perm_swap.
Defined.

End ReportRows.

(** ** The whole run *)

Section WholeRun.

Lemma write_billing_output_result (sys : MassTransitBillingSystem)
    (sink : sink_behaviour) (stdout : result unit)
    (destination : option contents) :
  (write_billing_output sys sink stdout destination
   = (Some (complete (output_rows (user_bills sys))), stdout)) \/
  snd (write_billing_output sys sink stdout destination) = Raise OSError.
Proof.
  unfold write_billing_output. destruct sink as [| |bytes];
    [left|right|right]; reflexivity.
Qed.

(** X20: [process_billing] touches the output file last.  If it returns
    normally the file holds the full report of the bills it has computed.
    If one of the three stages before the writing raises, the contents of
    the output file are what they were before the run.  When the closing
    [print] returns, a run that ends with any exception other than
    [OSError] has left the output file as it was; a [print] that raises
    does so after the report has been written. *)
Theorem process_billing_writes_last
    (zone_map_file journey_data_file : csv_file) (sink : sink_behaviour)
    (stdout : result unit) (destination : option contents)
    (sys : MassTransitBillingSystem) :
  let run :=
    process_billing zone_map_file journey_data_file sink stdout destination sys in
  let zones_read := read_zone_map zone_map_file sys in
  let journeys_read := read_journey_data journey_data_file (fst zones_read) in
  let billed := calculate_billing_amounts_per_user (fst journeys_read) in
  (snd run = Done ->
   snd (fst run) = Some (complete (output_rows (user_bills (fst (fst run)))))) /\
  (snd zones_read <> Ok tt \/ snd journeys_read <> Done \/ snd billed <> Ok tt ->
   snd (fst run) = destination /\ snd run <> Done) /\
  (stdout = Ok tt ->
   forall e, snd run = Raised e -> e <> Builtin OSError ->
             snd (fst run) = destination) /\
  (snd zones_read = Ok tt -> snd journeys_read = Done -> snd billed = Ok tt ->
   sink = sink_ok ->
   snd (fst run) = Some (complete (output_rows (user_bills (fst billed)))) /\
   snd run = outcome_of stdout).
Proof.
  intros run zones_read journeys_read billed.
  subst run zones_read journeys_read billed. unfold process_billing.
  destruct (read_zone_map zone_map_file sys) as [sys1 [[]|e1]]; cbn [fst snd].
  2:{ split; [discriminate|]. split; [split; [reflexivity|discriminate]|].
      split; [reflexivity|discriminate]. }
  destruct (read_journey_data journey_data_file sys1) as [sys2 [|e2]];
    cbn [fst snd].
  2:{ split; [discriminate|]. split; [split; [reflexivity|discriminate]|].
      split; [reflexivity|discriminate]. }
  destruct (calculate_billing_amounts_per_user sys2) as [sys3 [[]|e3]];
    cbn [fst snd].
  2:{ split; [discriminate|]. split; [split; [reflexivity|discriminate]|].
      split; [reflexivity|discriminate]. }
  split; [|split; [|split]].
  - destruct (write_billing_output_result sys3 sink stdout destination) as [H|H].
    + rewrite H. reflexivity.
    + destruct (write_billing_output sys3 sink stdout destination)
        as [destination' r4].
      cbn [snd] in H. subst r4. discriminate.
  - intros [H|[H|H]]; congruence.
  - intros -> e.
    destruct sink as [| |bytes]; cbn [write_billing_output fst snd outcome_of];
      [discriminate|reflexivity|congruence].
  - intros _ _ _ ->. cbn [write_billing_output fst snd]. split; reflexivity.
Qed.

Lemma store_zones_positive (rows : list (list string)) :
  Forall zone_row_positive rows ->
  forall zones,
    Forall (fun t => 1 <= snd t) zones ->
    snd (store_zones rows zones) = Ok tt /\
    Forall (fun t => 1 <= snd t) (fst (store_zones rows zones)) /\
    forall station,
      In (Some station) (map (@hd_error string) rows) \/ get zones station <> None ->
      get (fst (store_zones rows zones)) station <> None.
Proof.
  induction 1 as [|row rows (station & zone & z & -> & Hz & Hpos) _ IH];
    intros zones Hzones.
  - cbn [store_zones fst snd map In]. repeat split; [exact Hzones|tauto].
  - cbn [store_zones]. rewrite Hz.
    destruct (IH (set zones station z)) as (Hok & Hall & Hget).
    { apply (set_Forall (fun v => 1 <= v)); assumption. }
    split; [exact Hok|]. split; [exact Hall|].
    intros st Hst. apply Hget. cbn [map hd_error In] in Hst.
    destruct (String.eqb_spec station st) as [-> | Hne].
    + right. rewrite get_set_same. discriminate.
    + destruct Hst as [[Hst|Hst]|Hst]; [congruence|left; exact Hst|].
      right. rewrite get_set_other by exact Hne. exact Hst.
Qed.

Lemma journey_row_known_reads (zone_rows : list (list string)) (zones : dict Z)
    (row : list string) :
  (forall station, In (Some station) (map (@hd_error string) zone_rows) ->
                   get zones station <> None) ->
  journey_row_known zone_rows row -> row_reads zones row.
Proof.
  intros Hget (user_id & station & direction & timestamp & -> & Hts & Hin).
  unfold row_reads, journey_of_row.
  destruct (Strptime.strptime timestamp); [|congruence].
  specialize (Hget _ Hin). destruct (get zones station); [discriminate|congruence].
Qed.

Lemma journey_of_row_zone (zones : dict Z) (row : list string)
    (u : string) (j : journey) :
  Forall (fun t => 1 <= snd t) zones ->
  journey_of_row zones row = Some (u, j) -> 1 <= zone_of j.
Proof.
  intros Hzones. unfold journey_of_row.
  destruct row as [|user_id [|station [|direction [|timestamp [|extra row]]]]];
    try discriminate.
  destruct (Strptime.strptime timestamp) as [t|]; [|discriminate].
  destruct (get zones station) as [zone|] eqn:E; [|discriminate].
  intros H. inversion H; subst. cbn.
  apply (get_Forall (fun v => 1 <= v) _ _ _ Hzones E).
Qed.

Lemma store_journeys_valid (zones : dict Z) (rows : list (list string)) :
  Forall (fun t => 1 <= snd t) zones ->
  forall journeys journeys',
    store_journeys rows zones journeys = (journeys', Done) ->
    NoDup (keys journeys) ->
    Forall (fun t => zones_valid (snd t)) journeys ->
    NoDup (keys journeys') /\ Forall (fun t => zones_valid (snd t)) journeys'.
Proof.
  intros Hzones. induction rows as [|row rows IH]; intros journeys journeys' H Hnd Hv.
  - inversion H; subst. split; assumption.
  - destruct (journey_of_row zones row) as [[u j]|] eqn:E.
    + rewrite (store_journeys_row _ _ _ _ _ _ E) in H.
      apply (IH _ _ H); [apply set_NoDup, Hnd|].
      apply (set_Forall zones_valid); [exact Hv|].
      apply Forall_app. split.
      * unfold journeys_of. destruct (get journeys u) as [l|] eqn:Eg;
          [apply (get_Forall zones_valid _ _ _ Hv Eg)|constructor].
      * constructor; [|constructor]. eapply journey_of_row_zone; eassumption.
    + exfalso. apply (store_journeys_bad_row _ _ rows journeys E).
      rewrite H. reflexivity.
Qed.

(** X21: the run from the files to the report.  The input files are read
    to their end by [csv.reader] and their fields are ASCII text; every
    row of the zone map gives a zone that is an integer of at least 1;
    every row of the journey log has four fields, a timestamp that parses
    and a station of the zone map; the output file opens and takes the
    whole report ([sink_ok]).  Then [process_billing] on a new system
    leaves the full report in the output file, the bill of each user is the
    bill of the journeys of that user's rows, taken in the order of the
    log, a user without rows has no bill, and the run returns normally
    unless the closing [print] raises. *)
Theorem process_billing_end_to_end
    (zone_header journey_header : list string)
    (zone_rows journey_rows : list (list string))
    (stdout : result unit) (destination : option contents) :
  ascii_rows zone_rows ->
  ascii_rows journey_rows ->
  Forall zone_row_positive zone_rows ->
  Forall (journey_row_known zone_rows) journey_rows ->
  exists sys',
    process_billing (Some (zone_header :: zone_rows))
      (Some (journey_header :: journey_rows)) sink_ok stdout destination
      new_system
    = (sys', Some (complete (output_rows (user_bills sys'))), outcome_of stdout) /\
    forall u,
      match journeys_in (station_to_zone sys') u journey_rows with
      | [] => get (user_bills sys') u = None
      | first :: rest =>
          exists b, user_bill (first :: rest) = Ok b /\
                    get (user_bills sys') u = Some b
      end.
Proof.
  intros _ _ Hzone Hjourney.
  unfold process_billing, read_zone_map, read_journey_data, new_system.
  cbn [tl station_to_zone journeys_per_user user_bills].
  destruct (store_zones_positive _ Hzone empty) as (Hr1 & Hzones & Hget);
    [constructor|].
  destruct (store_zones zone_rows empty) as [zones r1].
  cbn [fst snd] in Hr1, Hzones, Hget. subst r1.
  cbn [station_to_zone journeys_per_user user_bills].
  assert (Hreads : Forall (row_reads zones) journey_rows).
  { eapply Forall_impl; [|exact Hjourney]. intros row.
    apply journey_row_known_reads. intros station Hin. apply Hget. left. exact Hin. }
  pose proof (store_journeys_reads _ _ Hreads empty) as Hr2.
  destruct (store_journeys journey_rows zones empty) as [journeys r2] eqn:E2.
  cbn [snd] in Hr2. subst r2.
  destruct (store_journeys_done _ _ _ _ E2) as (_ & Hof & Hne).
  specialize (Hne ltac:(constructor)).
  destruct (store_journeys_valid _ _ Hzones _ _ E2) as [Hnd Hvalid];
    [constructor|constructor|].
  unfold calculate_billing_amounts_per_user, items.
  cbn [station_to_zone journeys_per_user user_bills].
  assert (Hr3 : snd (bill_users journeys empty) = Ok tt).
  { apply bill_users_succeeds. unfold lists_non_empty in Hne.
    rewrite Forall_forall in *. intros t Ht. split; auto. }
  destruct (bill_users journeys empty) as [bills r3] eqn:E3.
  cbn [snd] in Hr3. subst r3.
  cbn [write_billing_output user_bills].
  exists (mk_system zones journeys bills). split; [reflexivity|].
  cbn [station_to_zone user_bills]. intros u.
  specialize (Hof u). cbn [app] in Hof.
  replace (journeys_of empty u) with (@nil journey) in Hof by reflexivity.
  cbn [app] in Hof. rewrite <- Hof. unfold journeys_of.
  destruct (get journeys u) as [js|] eqn:Eg.
  - pose proof (get_Forall (fun l => l <> []) _ _ _ Hne Eg) as Hjs.
    destruct js as [|first rest]; [congruence|].
    apply (bill_users_get _ _ _ Hnd E3 u), get_In, Eg.
  - rewrite (bill_users_frame _ _ _ _ _ E3); [reflexivity|].
    apply get_None, Eg.
Qed.

Lemma process_billing_end_to_end_witness :
  exists sys',
    process_billing
      (Some [ ["station"; "zone"]; ["station1"; "1"]; ["station2"; "2"] ])
      (Some [ ["user_id"; "station"; "direction"; "time"];
              ["user1"; "station1"; "IN"; "2022-04-04T09:40:00"];
              ["user1"; "station2"; "OUT"; "2022-04-04T09:50:00"] ])
      sink_ok (Ok tt) None new_system
    = (sys', Some (complete (output_rows (user_bills sys'))), Done).
Proof.
  destruct (process_billing_end_to_end
              ["station"; "zone"] ["user_id"; "station"; "direction"; "time"]
              [ ["station1"; "1"]; ["station2"; "2"] ]
              [ ["user1"; "station1"; "IN"; "2022-04-04T09:40:00"];
                ["user1"; "station2"; "OUT"; "2022-04-04T09:50:00"] ]
              (Ok tt) None) as (sys' & Hrun & _).
  - repeat constructor.
  - repeat constructor.
  - apply Forall_cons; [|apply Forall_cons; [|apply Forall_nil]].
    + exists "station1", "1", 1. split; [reflexivity|split; [reflexivity|lia]].
    + exists "station2", "2", 2. split; [reflexivity|split; [reflexivity|lia]].
  - apply Forall_cons; [|apply Forall_cons; [|apply Forall_nil]].
    + exists "user1", "station1", "IN", "2022-04-04T09:40:00".
      split; [reflexivity|split; [discriminate|left; reflexivity]].
    + exists "user1", "station2", "OUT", "2022-04-04T09:50:00".
      split; [reflexivity|split; [discriminate|right; left; reflexivity]].
  - exists sys'. exact Hrun.
Defined.

End WholeRun.

(** ** The exceptions of a run *)

Section RunExceptions.

Lemma store_zones_raises (rows : list (list string)) :
  forall zones e, snd (store_zones rows zones) = Raise e -> e = ValueError.
Proof.
  induction rows as [|row rows IH]; intros zones e; [discriminate|].
  destruct row as [|station [|zone [|extra row]]];
    try (cbn; intros H; inversion H; reflexivity).
  cbn [store_zones]. destruct (PyStr.to_int zone) as [z|]; [apply IH|].
  cbn. intros H. inversion H. reflexivity.
Qed.

Lemma store_journeys_raises (zones : dict Z) (rows : list (list string)) :
  forall journeys e,
    snd (store_journeys rows zones journeys) = Raised e ->
    e = Builtin ValueError \/
    exists user_id station direction timestamp,
      In [user_id; station; direction; timestamp] rows /\
      e = KeyError station /\ get zones station = None.
Proof.
  induction rows as [|row rows IH]; intros journeys e; [discriminate|].
  destruct row as [|user_id [|station [|direction [|timestamp [|extra row]]]]];
    try (cbn; intros H; inversion H; left; reflexivity).
  cbn [store_journeys].
  destruct (Strptime.strptime timestamp) as [t|];
    [|cbn; intros H; inversion H; left; reflexivity].
  destruct (get zones station) as [zone|] eqn:E.
  - intros H. destruct (IH _ _ H) as [He|(u & s & d & ts & Hin & He & Hg)];
      [left; exact He|].
    right. exists u, s, d, ts. split; [right; exact Hin|split; assumption].
  - cbn. intros H. inversion H. right.
    exists user_id, station, direction, timestamp.
    split; [left; reflexivity|split; [reflexivity|exact E]].
Qed.

(** X22: the exceptions of a run of [process_billing] on a new system,
    for input files with ASCII fields that [csv.reader] reads to their end
    (or that cannot be opened).  A run that ends with an exception ends
    with [OSError] (a file that cannot be opened or written), with
    [ValueError] (a row of the wrong shape, a zone that is not an integer,
    a timestamp that does not parse, a zone below 1 at pricing), with
    [KeyError] for a station that a row of the journey log names and the
    zone map lacks, or with the exception of the closing [print].  No
    [IndexError] comes from the billing loop: every user of the log has a
    journey. *)
Theorem process_billing_exceptions
    (zone_map_file journey_data_file : csv_file)
    (sink : sink_behaviour) (stdout : result unit)
    (destination : option contents) (e : exception) :
  ascii_file zone_map_file ->
  ascii_file journey_data_file ->
  snd (process_billing zone_map_file journey_data_file sink stdout destination
         new_system) = Raised e ->
  e = Builtin OSError \/ e = Builtin ValueError \/
  (exists journey_rows user_id station direction timestamp,
      journey_data_file = Some journey_rows /\
      In [user_id; station; direction; timestamp] (tl journey_rows) /\
      e = KeyError station /\
      get (station_to_zone
             (fst (fst (process_billing zone_map_file journey_data_file sink
                          stdout destination new_system)))) station = None) \/
  (sink = sink_ok /\ outcome_of stdout = Raised e).
Proof.
  intros _ _.
  unfold process_billing, read_zone_map, new_system.
  destruct zone_map_file as [zone_rows|];
    [|cbn; intros H; inversion H; left; reflexivity].
  cbn [station_to_zone journeys_per_user user_bills].
  pose proof (store_zones_raises (tl zone_rows) empty) as Hz.
  destruct (store_zones (tl zone_rows) empty) as [zones [[]|e1]].
  2:{ cbn [snd] in *. intros H. inversion H. rewrite (Hz e1 eq_refl).
      right. left. reflexivity. }
  clear Hz. unfold read_journey_data.
  destruct journey_data_file as [journey_rows|];
    [|cbn; intros H; inversion H; left; reflexivity].
  cbn [station_to_zone journeys_per_user user_bills].
  pose proof (store_journeys_raises zones (tl journey_rows) empty) as Hj.
  destruct (store_journeys (tl journey_rows) zones empty)
    as [journeys [|e2]] eqn:E2.
  2:{ cbn [fst snd station_to_zone] in *. intros H. inversion H; subst.
      destruct (Hj e eq_refl) as [He|(u & s & d & ts & He)];
        [right; left; exact He|].
      right. right. left. exists journey_rows, u, s, d, ts.
      split; [reflexivity|exact He]. }
  clear Hj. destruct (store_journeys_done _ _ _ _ E2) as (_ & _ & Hne).
  specialize (Hne ltac:(constructor)).
  unfold calculate_billing_amounts_per_user, items.
  cbn [station_to_zone journeys_per_user user_bills].
  destruct (bill_users journeys empty) as [bills [[]|e3]] eqn:E3.
  2:{ cbn [snd]. intros H. inversion H.
      rewrite (bill_users_raises _ _ _ _ Hne E3). right. left. reflexivity. }
  destruct sink as [| |bytes]; cbn [write_billing_output fst snd].
  - intros H. right. right. right. split; [reflexivity|exact H].
  - cbn. intros H. inversion H. left. reflexivity.
  - cbn. intros H. inversion H. left. reflexivity.
Qed.

Lemma process_billing_exceptions_witness :
  KeyError "nowhere" = Builtin OSError \/
  KeyError "nowhere" = Builtin ValueError \/
  (exists journey_rows user_id station direction timestamp,
      Some [ ["user_id"; "station"; "direction"; "time"];
             ["user1"; "nowhere"; "IN"; "2022-04-04T09:40:00"] ]
      = Some journey_rows /\
      In [user_id; station; direction; timestamp] (tl journey_rows) /\
      KeyError "nowhere" = KeyError station /\
      get [("station1", 1)] station = None) \/
  (sink_ok = sink_ok /\ outcome_of (Ok tt) = Raised (KeyError "nowhere")).
Proof.
  apply (process_billing_exceptions
           (Some [ ["station"; "zone"]; ["station1"; "1"] ])
           (Some [ ["user_id"; "station"; "direction"; "time"];
                   ["user1"; "nowhere"; "IN"; "2022-04-04T09:40:00"] ])
           sink_ok (Ok tt) None (KeyError "nowhere")).
  - repeat constructor.
  - repeat constructor.
  - reflexivity.
Defined.

End RunExceptions.
